(** * Baba Is AGI: the JSON evaluation harness and the Grid snapshot contract

    A shallow embedding of [scripts/eval_harness.py] (class [EvalHarness],
    methods [handle_command] and [run]) together with the part of the
    engine interface that the harness and the integration tests rely on.

    Python values that travel through the harness (decoded JSON requests,
    response dictionaries, observations) are values of [pyval].  Python
    exceptions are explicit: a computation either returns or raises. *)

From stdpp Require Import base strings list gmap gmultiset.
From Stdlib Require Import ZArith Ascii.

Set Warnings "-register-all".
Open Scope Z_scope.
Open Scope string_scope.

(** ** Python values *)

(** The values [json.loads] can produce and [json.dumps] can print.  A
    [dict] is an insertion-ordered association list with [str] keys; a
    float is kept as its decimal text, the harness never computes with
    one. *)
Inductive pyval : Type :=
  | PNone
  | PBool (b : bool)
  | PInt (n : Z)
  | PFloat (repr : string)
  | PStr (s : string)
  | PList (items : list pyval)
  | PDict (entries : list (string * pyval)).

(** The exceptions that can leave the harness: [AttributeError] and
    [TypeError] are raised by the code of [handle_command] itself,
    [ValueError] and [RecursionError] by [json.loads]. *)
Inductive exn : Type :=
  | AttributeError
  | TypeError
  | ValueError
  | RecursionError.

(** A computation that returns a value or raises. *)
Inductive result (A : Type) : Type :=
  | Ok (a : A)
  | Raise (e : exn).
Arguments Ok {A} a.
Arguments Raise {A} e.

#[global] Instance result_ret : MRet result := λ A a, Ok a.
#[global] Instance result_bind : MBind result := λ A B f m,
  match m with
  | Ok a => f a
  | Raise e => Raise e
  end.

(** ** Dictionaries *)

Section dict.
Context {V : Type}.

(** [d.get(k)], as an option. *)
Fixpoint dict_get (k : string) (d : list (string * V)) : option V :=
  match d with
  | [] => None
  | (k', v) :: d' => if String.eqb k k' then Some v else dict_get k d'
  end.

(** [d[k] = v]: overwrite in place, or append a new key. *)
Fixpoint dict_set (k : string) (v : V) (d : list (string * V))
  : list (string * V) :=
  match d with
  | [] => [(k, v)]
  | (k', v') :: d' =>
      if String.eqb k k' then (k, v) :: d' else (k', v') :: dict_set k v d'
  end.

Definition dict_keys (d : list (string * V)) : list string := map fst d.

(** [k in d] for a [str] key. *)
Definition dict_has (k : string) (d : list (string * V)) : bool :=
  existsb (String.eqb k) (dict_keys d).
End dict.

(** [v.get(k, dflt)]: only a dict has a [get] method. *)
Definition py_get (v : pyval) (k : string) (dflt : pyval) : result pyval :=
  match v with
  | PDict d => Ok (default dflt (dict_get k d))
  | _ => Raise AttributeError
  end.

(** [v == s] for a [str] literal [s]: only a [str] equals a [str]. *)
Definition py_eq_str (v : pyval) (s : string) : bool :=
  match v with
  | PStr t => String.eqb t s
  | _ => false
  end.

(** [v in l] for a list [l] of [str] literals (compares with [==]). *)
Definition py_in_list (v : pyval) (l : list string) : bool :=
  existsb (py_eq_str v) l.

(** Whether [hash(v)] returns: lists and dicts are unhashable. *)
Definition hashable (v : pyval) : bool :=
  match v with
  | PList _ | PDict _ => false
  | _ => true
  end.

(** [v in d] for a dict [d] with [str] keys: the key is hashed first, and
    lists and dicts are unhashable. *)
Definition py_in_dict {V : Type} (v : pyval) (d : list (string * V))
  : result bool :=
  match v with
  | PList _ | PDict _ => Raise TypeError
  | PStr s => Ok (dict_has s d)
  | _ => Ok false
  end.

(** The entry of a dict under a key, when it has one. *)
Definition py_lookup (v : pyval) (k : string) : option pyval :=
  match v with
  | PDict d => dict_get k d
  | _ => None
  end.

(** Whether a response carries the given [status]. *)
Definition status_is (s : string) (response : pyval) : bool :=
  match py_lookup response "status" with
  | Some v => py_eq_str v s
  | None => false
  end.

(** Whether a request is a dict whose [cmd] is the given command. *)
Definition is_cmd (c : string) (cmd_data : pyval) : bool :=
  match py_lookup cmd_data "cmd" with
  | Some v => py_eq_str v c
  | None => false
  end.

(** ** What the harness imports *)

(** What [json.loads] does with a text: it returns the decoded value, or
    raises [json.JSONDecodeError] (with the text of the error), or raises
    another exception (a [ValueError] on an integer literal beyond the digit
    limit of [int], a [RecursionError] on a document nested too deep). *)
Inductive loaded : Type :=
  | Loaded (v : pyval)
  | JSONDecodeError (detail : string)
  | LoadRaises (e : exn).

(** Built-ins of the Python runtime used by the harness: [str.strip],
    [json.loads] and the conversion [str()] that f-strings apply to an
    interpolated value. *)
Class PyBuiltins : Type := {
  str_strip : string → string;
  json_loads : string → loaded;
  py_str : pyval → string;
}.

(** An environment class of the registry: its [difficulty] class attribute,
    when it has one. *)
Record env_class : Type := { difficulty : option pyval }.

(** [getattr(env_class, "difficulty", 1)]. *)
Definition getattr_difficulty (c : env_class) : pyval :=
  default (PInt 1) (difficulty c).

(** [baba.envs]: the registry [ENVIRONMENTS] (a dict from names to
    classes), [create_environment], and the three methods the harness calls
    on an environment.  The environment is a mutable object; a method
    returns its result and the object's new state.  [env_step] returns the
    tuple [(obs, reward, done, info)].  The calls are taken to return:
    the engine raises nothing on a registered name or a recognised
    action. *)
Class BabaEnvs : Type := {
  Env : Type;
  ENVIRONMENTS : list (string * env_class);
  create_environment : pyval → Env;
  env_reset : Env → Env;
  env_to_dict : Env → pyval * Env;
  env_step : Env → pyval → (pyval * pyval * pyval * pyval) * Env;
}.

(** A method call made on the engine, for the call log. *)
Inductive call : Type :=
  | CallCreate (name : pyval)
  | CallReset
  | CallToDict
  | CallStep (action : pyval).

(** ** EvalHarness *)

Section harness.
Context `{PyBuiltins} `{BabaEnvs}.

(** The attributes [self.env] and [self.env_name]; [None] is Python's
    [None] for the first. *)
Record EvalHarness : Type := {
  env : option Env;
  env_name : pyval;
}.

(** [__init__] *)
Definition init : EvalHarness := {| env := None; env_name := PNone |}.

Definition valid_actions : list string :=
  ["up"; "down"; "left"; "right"; "wait"].

(** [str(valid_actions)] *)
Definition valid_actions_str : string :=
  "['up', 'down', 'left', 'right', 'wait']".

Definition error_response (message : string) : pyval :=
  PDict [("status", PStr "error"); ("message", PStr message)].

(** The loop of the [list_envs] branch. *)
Definition envs_with_difficulty : list (string * pyval) :=
  fold_left
    (λ acc '(name, cls),
      dict_set name (PDict [("difficulty", getattr_difficulty cls)]) acc)
    ENVIRONMENTS [].

(** [handle_command]: the new state of [self], the response, and the
    engine calls made, in order. *)
Definition handle_command (self : EvalHarness) (cmd_data : pyval)
  : result (EvalHarness * pyval * list call) :=
  cmd ← py_get cmd_data "cmd" (PStr "");
  if py_eq_str cmd "list_envs" then
    Ok (self,
        PDict [("status", PStr "ok"); ("envs", PDict envs_with_difficulty)],
        [])
  else if py_eq_str cmd "reset" then
    name ← py_get cmd_data "env" (PStr "simple");
    registered ← py_in_dict name ENVIRONMENTS;
    if negb registered then
      Ok (self,
          error_response
            ("Unknown environment: " +:+ py_str name +:+
             ". Use 'list_envs' to see available environments."),
          [])
    else
      let e := env_reset (create_environment name) in
      let '(obs, e) := env_to_dict e in
      Ok ({| env := Some e; env_name := name |},
          PDict [("status", PStr "ok"); ("env", name); ("observation", obs)],
          [CallCreate name; CallReset; CallToDict])
  else if py_eq_str cmd "step" then
    match env self with
    | None =>
        Ok (self,
            error_response "No environment loaded. Use 'reset' first.", [])
    | Some e =>
        action ← py_get cmd_data "action" (PStr "wait");
        if negb (py_in_list action valid_actions) then
          Ok (self,
              error_response
                ("Invalid action: " +:+ py_str action +:+
                 ". Valid actions: " +:+ valid_actions_str),
              [])
        else
          let '(_, reward, done, info, e) := env_step e action in
          let '(obs, e) := env_to_dict e in
          Ok ({| env := Some e; env_name := env_name self |},
              PDict [("status", PStr "ok"); ("observation", obs);
                     ("reward", reward); ("done", done); ("info", info)],
              [CallStep action; CallToDict])
    end
  else if py_eq_str cmd "info" then
    match env self with
    | None =>
        Ok (self,
            error_response "No environment loaded. Use 'reset' first.", [])
    | Some e =>
        let '(obs, e) := env_to_dict e in
        Ok ({| env := Some e; env_name := env_name self |},
            PDict [("status", PStr "ok"); ("env", env_name self);
                   ("observation", obs)],
            [CallToDict])
    end
  else if py_eq_str cmd "quit" then
    Ok (self, PDict [("status", PStr "ok"); ("message", PStr "goodbye")], [])
  else
    Ok (self,
        error_response
          ("Unknown command: " +:+ py_str cmd +:+
           ". Valid commands: list_envs, reset, step, info, quit"),
        []).

(** How [run] ends. *)
Inductive ending : Type :=
  | EndOfInput
  | Quit
  | Uncaught (e : exn).

(** What [run] leaves behind: the responses printed (each one the
    dictionary handed to [json.dumps]), the state of [self], and how the
    loop ended. *)
Record outcome : Type := {
  stdout : list pyval;
  final : EvalHarness;
  ended : ending;
}.

Definition prints (responses : list pyval) (o : outcome) : outcome :=
  {| stdout := responses ++ stdout o; final := final o; ended := ended o |}.

Definition print (response : pyval) (o : outcome) : outcome :=
  prints [response] o.

(** The loop of [run] over the lines [sys.stdin] yields (text already
    decoded).  Only [JSONDecodeError] is caught; any other exception of
    [json.loads], and any of [handle_command], leaves the loop.  Writing a
    response to stdout is taken to succeed. *)
Fixpoint run_loop (self : EvalHarness) (stdin : list string) : outcome :=
  match stdin with
  | [] => {| stdout := []; final := self; ended := EndOfInput |}
  | line :: rest =>
      let line := str_strip line in
      if String.eqb line "" then run_loop self rest
      else
        match json_loads line with
        | LoadRaises e =>
            {| stdout := []; final := self; ended := Uncaught e |}
        | JSONDecodeError e =>
            print (error_response ("Invalid JSON: " +:+ e))
                  (run_loop self rest)
        | Loaded cmd_data =>
            match handle_command self cmd_data with
            | Raise e =>
                {| stdout := []; final := self; ended := Uncaught e |}
            | Ok (self', response, _) =>
                print response
                  match py_get cmd_data "cmd" PNone with
                  | Raise e =>
                      {| stdout := []; final := self'; ended := Uncaught e |}
                  | Ok c =>
                      if py_eq_str c "quit" then
                        {| stdout := []; final := self'; ended := Quit |}
                      else run_loop self' rest
                  end
            end
        end
  end.

(** [run], on a fresh harness as [main] makes it. *)
Definition run (stdin : list string) : outcome := run_loop init stdin.

(** A session seen from the caller's side: requests handled one after the
    other on the same harness, with their responses. *)
Fixpoint handle_all (self : EvalHarness) (requests : list pyval)
  : result (EvalHarness * list pyval) :=
  match requests with
  | [] => Ok (self, [])
  | cmd_data :: rest =>
      '(self, response, _) ← handle_command self cmd_data;
      '(self, responses) ← handle_all self rest;
      Ok (self, response :: responses)
  end.

(** Some request of the session was a [reset] answered with status
    [ok]. *)
Definition reset_succeeded (requests responses : list pyval) : bool :=
  existsb (λ '(cmd_data, response),
             is_cmd "reset" cmd_data && status_is "ok" response)
          (zip requests responses).
End harness.

(** ** A reference runtime

    A decoder, a [strip] and a [str()] over texts held as UTF-8 bytes, to
    run the harness on concrete text.  The decoder follows the grammar
    [json.loads] accepts and its two limits (the digits of an [int], the
    depth of nesting); the text of an error is cut down to its first words
    (no line and column). *)

Module Reference.

Definition code (c : ascii) : N := N_of_ascii c.

Definition bytes (codes : list N) : list ascii := map ascii_of_N codes.

(** The characters [str.isspace] accepts, as UTF-8: the ASCII ones (9 to
    13, 28 to 32), then U+0085, U+00A0, U+1680, U+2000 to U+200A, U+2028,
    U+2029, U+202F, U+205F and U+3000. *)
Definition spaces : list (list ascii) :=
  map (λ n, bytes [n]) [9; 10; 11; 12; 13; 28; 29; 30; 31; 32]%N ++
  [bytes [194; 133]%N; bytes [194; 160]%N; bytes [225; 154; 128]%N] ++
  map (λ n, bytes [226; 128; n]%N)
      [128; 129; 130; 131; 132; 133; 134; 135; 136; 137; 138; 168; 169; 175]%N ++
  [bytes [226; 129; 159]%N; bytes [227; 128; 128]%N].

(** [drop_prefix p l]: what follows [p] in [l]. *)
Fixpoint drop_prefix (p l : list ascii) : option (list ascii) :=
  match p, l with
  | [], _ => Some l
  | a :: p', b :: l' => if (code a =? code b)%N then drop_prefix p' l' else None
  | _ :: _, [] => None
  end.

(** What follows the first of the sequences [ps] that starts [l]. *)
Fixpoint drop_any (ps : list (list ascii)) (l : list ascii)
  : option (list ascii) :=
  match ps with
  | [] => None
  | p :: ps' =>
      match drop_prefix p l with
      | Some rest => Some rest
      | None => drop_any ps' l
      end
  end.

(** [l] without the sequences of [ps] at its head. *)
Fixpoint drop_all (fuel : nat) (ps : list (list ascii)) (l : list ascii)
  : list ascii :=
  match fuel with
  | O => l
  | S fuel =>
      match drop_any ps l with
      | Some rest => drop_all fuel ps rest
      | None => l
      end
  end.

Definition lstrip (l : list ascii) : list ascii :=
  drop_all (length l) spaces l.

Definition rstrip (l : list ascii) : list ascii :=
  reverse (drop_all (length l) (map reverse spaces) (reverse l)).

(** [s.strip()] *)
Definition strip (s : string) : string :=
  String.string_of_list_ascii
    (rstrip (lstrip (String.list_ascii_of_string s))).

(** Whitespace between JSON tokens. *)
Definition is_ws (c : ascii) : bool :=
  let n := code c in
  ((n =? 32) || (n =? 9) || (n =? 10) || (n =? 13))%N.

Fixpoint skip_ws (s : string) : string :=
  match s with
  | String c s' => if is_ws c then skip_ws s' else s
  | EmptyString => s
  end.

Definition is_digit (c : ascii) : bool :=
  let n := code c in ((48 <=? n) && (n <=? 57))%N.

(** The longest prefix of digits, and what follows it. *)
Fixpoint span_digits (s : string) : string * string :=
  match s with
  | String c s' =>
      if is_digit c then
        let '(ds, rest) := span_digits s' in (String c ds, rest)
      else (EmptyString, s)
  | EmptyString => (EmptyString, EmptyString)
  end.

Fixpoint digits_value (acc : Z) (ds : string) : Z :=
  match ds with
  | String c ds' => digits_value (10 * acc + Z.of_N (code c - 48)) ds'
  | EmptyString => acc
  end.

Definition hex_value (c : ascii) : option N :=
  let n := code c in
  if ((48 <=? n) && (n <=? 57))%N then Some (n - 48)%N
  else if ((65 <=? n) && (n <=? 70))%N then Some (n - 55)%N
  else if ((97 <=? n) && (n <=? 102))%N then Some (n - 87)%N
  else None.

(** Four hexadecimal digits at the head of [s]: their value and what
    follows; [None] when the four characters are there but are not all
    hexadecimal digits or are missing. *)
Definition hex4 (s : string) : option (N * string) :=
  match s with
  | String h1 (String h2 (String h3 (String h4 rest))) =>
      match hex_value h1, hex_value h2, hex_value h3, hex_value h4 with
      | Some a, Some b, Some c, Some d =>
          Some (4096 * a + 256 * b + 16 * c + d, rest)%N
      | _, _, _, _ => None
      end
  | _ => None
  end.

(** UTF-8 bytes of a code point (a lone surrogate is written as any other
    code point of three bytes). *)
Definition utf8 (n : N) : string :=
  let byte (k : N) := String (ascii_of_N k) EmptyString in
  if (n <? 128)%N then byte n
  else if (n <? 2048)%N then
    byte (192 + n / 64)%N +:+ byte (128 + n mod 64)%N
  else if (n <? 65536)%N then
    byte (224 + n / 4096)%N +:+ byte (128 + (n / 64) mod 64)%N +:+
    byte (128 + n mod 64)%N
  else
    byte (240 + n / 262144)%N +:+ byte (128 + (n / 4096) mod 64)%N +:+
    byte (128 + (n / 64) mod 64)%N +:+ byte (128 + n mod 64)%N.

(** [strip_prefix p s]: what follows [p] in [s]. *)
Fixpoint strip_prefix (p s : string) : option string :=
  match p, s with
  | EmptyString, _ => Some s
  | String a p', String b s' =>
      if (code a =? code b)%N then strip_prefix p' s' else None
  | _, EmptyString => None
  end.

(** What a scanner finds at the head of a text: a value and the text that
    follows it, a [JSONDecodeError], or another exception. *)
Inductive scan (A : Type) : Type :=
  | Found (a : A) (rest : string)
  | Malformed (detail : string)
  | Raised (e : exn).
Arguments Found {A} a rest.
Arguments Malformed {A} detail.
Arguments Raised {A} e.

(** The escape after [\u] whose four digits gave [hi], and what follows it:
    a high surrogate followed by the escape of a low surrogate makes one
    code point with it. *)
Definition scan_unicode (hi : N) (rest : string) : scan N :=
  if ((55296 <=? hi) && (hi <=? 56319))%N then
    match rest with
    | String b (String u rest') =>
        if ((code b =? 92) && (code u =? 117))%N then
          match hex4 rest' with
          | Some (lo, rest'') =>
              if ((56320 <=? lo) && (lo <=? 57343))%N then
                Found (65536 + (hi - 55296) * 1024 + (lo - 56320))%N rest''
              else Found hi rest
          | None =>
              match rest' with
              | String _ (String _ (String _ (String _ (String _ _)))) =>
                  Malformed "Invalid \uXXXX escape"
              | _ => Found hi rest
              end
          end
        else Found hi rest
    | _ => Found hi rest
    end
  else Found hi rest.

(** The body of a string literal, after the opening quote: the decoded
    text and what follows the closing quote. *)
Fixpoint scan_string (fuel : nat) (s : string) : scan string :=
  match fuel, s with
  | S fuel, String c s' =>
      let cons (t : string) (rest : string) :=
        match scan_string fuel rest with
        | Found t' after => Found (t +:+ t') after
        | other => other
        end in
      let byte (b : N) := String (ascii_of_N b) EmptyString in
      let n := code c in
      if (n =? 34)%N then Found EmptyString s'
      else if (n <? 32)%N then Malformed "Invalid control character at"
      else if (n =? 92)%N then
        match s' with
        | String e s'' =>
            let k := code e in
            if (k =? 34)%N || (k =? 92)%N || (k =? 47)%N then cons (byte k) s''
            else if (k =? 98)%N then cons (byte 8%N) s''
            else if (k =? 102)%N then cons (byte 12%N) s''
            else if (k =? 110)%N then cons (byte 10%N) s''
            else if (k =? 114)%N then cons (byte 13%N) s''
            else if (k =? 116)%N then cons (byte 9%N) s''
            else if (k =? 117)%N then
              match hex4 s'' with
              | Some (hi, s5) =>
                  match scan_unicode hi s5 with
                  | Found point s6 => cons (utf8 point) s6
                  | Malformed m => Malformed m
                  | Raised x => Raised x
                  end
              | None => Malformed "Invalid \uXXXX escape"
              end
            else Malformed "Invalid \escape"
        | EmptyString => Malformed "Unterminated string starting at"
        end
      else cons (byte n) s'
  | _, _ => Malformed "Unterminated string starting at"
  end.

(** [sys.int_max_str_digits]: [int] refuses a literal with more digits. *)
Definition int_max_str_digits : nat := 4300.

(** [sys.getrecursionlimit()]: the scanner gives up on a value nested
    deeper.  (The frames already on the stack when the decoder is entered
    are not counted.) *)
Definition recursion_limit : nat := 1000.

(** A number at the head of [s]: an [int] when it has neither fraction nor
    exponent, a [float] otherwise; [None] when no number starts there. *)
Definition scan_number (s : string) : option (scan pyval) :=
  let '(sign, s1) :=
    match strip_prefix "-" s with
    | Some t => ("-", t)
    | None => (EmptyString, s)
    end in
  let '(ds, s2) := span_digits s1 in
  match ds with
  | EmptyString => None
  | String d ds' =>
      let '(ip, s2) :=
        if (code d =? 48)%N then ("0", ds' +:+ s2) else (ds, s2) in
      let '(frac, s3) :=
        match strip_prefix "." s2 with
        | Some t =>
            let '(fs, r) := span_digits t in
            match fs with
            | EmptyString => (EmptyString, s2)
            | _ => ("." +:+ fs, r)
            end
        | None => (EmptyString, s2)
        end in
      let '(ex, s4) :=
        match s3 with
        | String e t =>
            if (code e =? 101)%N || (code e =? 69)%N then
              let '(sg, t') :=
                match t with
                | String g u =>
                    if (code g =? 43)%N || (code g =? 45)%N
                    then (String g EmptyString, u) else (EmptyString, t)
                | EmptyString => (EmptyString, t)
                end in
              let '(es, r) := span_digits t' in
              match es with
              | EmptyString => (EmptyString, s3)
              | _ => (String e EmptyString +:+ sg +:+ es, r)
              end
            else (EmptyString, s3)
        | EmptyString => (EmptyString, s3)
        end in
      match frac, ex with
      | EmptyString, EmptyString =>
          if (int_max_str_digits <? String.length ip)%nat then
            Some (Raised ValueError)
          else
            let v := digits_value 0 ip in
            Some (Found (PInt (if String.eqb sign "-" then - v else v)) s4)
      | _, _ => Some (Found (PFloat (sign +:+ ip +:+ frac +:+ ex)) s4)
      end
  end.

(** A literal or a number at the head of [s], in the scanner's order. *)
Definition scan_atom (s : string) : scan pyval :=
  match strip_prefix "null" s with
  | Some r => Found PNone r
  | None =>
  match strip_prefix "true" s with
  | Some r => Found (PBool true) r
  | None =>
  match strip_prefix "false" s with
  | Some r => Found (PBool false) r
  | None =>
  match scan_number s with
  | Some found => found
  | None =>
  match strip_prefix "NaN" s with
  | Some r => Found (PFloat "NaN") r
  | None =>
  match strip_prefix "Infinity" s with
  | Some r => Found (PFloat "Infinity") r
  | None =>
  match strip_prefix "-Infinity" s with
  | Some r => Found (PFloat "-Infinity") r
  | None => Malformed "Expecting value"
  end end end end end end end.

(** One JSON value at the head of [s], and what follows it, with [depth]
    values still allowed around one another.  An object becomes a dict: a
    repeated key keeps its place and takes the last value. *)
Fixpoint decode_value (fuel depth : nat) (s : string) {struct fuel}
  : scan pyval :=
  match fuel, depth with
  | O, _ => Malformed "Expecting value"
  | _, O => Raised RecursionError
  | S fuel, S depth =>
      match s with
      | EmptyString => Malformed "Expecting value"
      | String c s' =>
          let n := code c in
          if (n =? 34)%N then
            match scan_string (String.length s') s' with
            | Found t rest => Found (PStr t) rest
            | Malformed m => Malformed m
            | Raised x => Raised x
            end
          else if (n =? 123)%N then
            match strip_prefix "}" (skip_ws s') with
            | Some rest => Found (PDict []) rest
            | None => decode_members fuel depth [] (skip_ws s')
            end
          else if (n =? 91)%N then
            match strip_prefix "]" (skip_ws s') with
            | Some rest => Found (PList []) rest
            | None => decode_items fuel depth [] (skip_ws s')
            end
          else scan_atom s
      end
  end
with decode_items (fuel depth : nat) (acc : list pyval) (s : string)
  {struct fuel} : scan pyval :=
  match fuel with
  | O => Malformed "Expecting value"
  | S fuel =>
      match decode_value fuel depth s with
      | Found v rest =>
          match skip_ws rest with
          | String c rest' =>
              if (code c =? 44)%N then
                decode_items fuel depth (acc ++ [v]) (skip_ws rest')
              else if (code c =? 93)%N then Found (PList (acc ++ [v])) rest'
              else Malformed "Expecting ',' delimiter"
          | EmptyString => Malformed "Expecting ',' delimiter"
          end
      | other => other
      end
  end
with decode_members (fuel depth : nat) (acc : list (string * pyval))
  (s : string) {struct fuel} : scan pyval :=
  match fuel with
  | O => Malformed "Expecting value"
  | S fuel =>
      match s with
      | String q s' =>
          if (code q =? 34)%N then
            match scan_string (String.length s') s' with
            | Found k rest =>
                match strip_prefix ":" (skip_ws rest) with
                | None => Malformed "Expecting ':' delimiter"
                | Some rest' =>
                    match decode_value fuel depth (skip_ws rest') with
                    | Found v after =>
                        match skip_ws after with
                        | String c r =>
                            if (code c =? 44)%N then
                              decode_members fuel depth (dict_set k v acc)
                                (skip_ws r)
                            else if (code c =? 125)%N then
                              Found (PDict (dict_set k v acc)) r
                            else Malformed "Expecting ',' delimiter"
                        | EmptyString => Malformed "Expecting ',' delimiter"
                        end
                    | other => other
                    end
                end
            | Malformed m => Malformed m
            | Raised x => Raised x
            end
          else Malformed "Expecting property name enclosed in double quotes"
      | EmptyString =>
          Malformed "Expecting property name enclosed in double quotes"
      end
  end.

(** [json.loads]: one value, surrounded by whitespace only. *)
Definition loads (s : string) : loaded :=
  match strip_prefix (utf8 65279%N) s with
  | Some _ => JSONDecodeError "Unexpected UTF-8 BOM (decode using utf-8-sig)"
  | None =>
      match
        decode_value (2 * String.length s + 2)%nat recursion_limit (skip_ws s)
      with
      | Found v rest =>
          match skip_ws rest with
          | EmptyString => Loaded v
          | _ => JSONDecodeError "Extra data"
          end
      | Malformed m => JSONDecodeError m
      | Raised e => LoadRaises e
      end
  end.

(** The decimal digits of a natural number, most significant first. *)
Fixpoint decimal_digits (fuel : nat) (n : N) (acc : string) : string :=
  match fuel with
  | O => acc
  | S fuel =>
      let acc := String (ascii_of_N (48 + n mod 10)) acc in
      if (n <? 10)%N then acc else decimal_digits fuel (n / 10)%N acc
  end.

(** [str(n)] for an [int]. *)
Definition decimal (n : Z) : string :=
  let m := Z.to_N (Z.abs n) in
  let ds := decimal_digits (S (N.to_nat (N.log2 m))) m EmptyString in
  if (n <? 0)%Z then "-" +:+ ds else ds.

Definition hex_digit (n : N) : ascii :=
  ascii_of_N (if n <? 10 then 48 + n else 87 + n)%N.

Fixpoint has_code (n : N) (s : string) : bool :=
  match s with
  | String c s' => (code c =? n)%N || has_code n s'
  | EmptyString => false
  end.

(** The characters of a [str] as [repr] writes them between quotes of code
    [quote]: the quote and the backslash escaped, tab, newline and return
    by letter, the other control characters by their code. *)
Fixpoint escaped (quote : N) (s : string) : string :=
  match s with
  | EmptyString => EmptyString
  | String c s' =>
      let n := code c in
      let b := String (ascii_of_N 92%N) EmptyString in
      (if (n =? quote)%N || (n =? 92)%N then b +:+ String c EmptyString
       else if (n =? 9)%N then b +:+ "t"
       else if (n =? 10)%N then b +:+ "n"
       else if (n =? 13)%N then b +:+ "r"
       else if (n <? 32)%N || (n =? 127)%N then
         b +:+ "x" +:+
         String (hex_digit (n / 16)) (String (hex_digit (n mod 16)) EmptyString)
       else String c EmptyString)
      +:+ escaped quote s'
  end.

(** [repr(s)] for a [str]: in double quotes when it holds a single quote
    and no double one, in single quotes otherwise.  Bytes beyond ASCII are
    written as they are. *)
Definition repr_str (s : string) : string :=
  let quote := (if has_code 39 s && negb (has_code 34 s) then 34 else 39)%N in
  let q := String (ascii_of_N quote) EmptyString in
  q +:+ escaped quote s +:+ q.

(** [repr(v)].  A float is written as the source text had it. *)
Fixpoint repr (v : pyval) : string :=
  match v with
  | PNone => "None"
  | PBool b => if b then "True" else "False"
  | PInt n => decimal n
  | PFloat t => t
  | PStr s => repr_str s
  | PList l => "[" +:+ String.concat ", " (map repr l) +:+ "]"
  | PDict d =>
      "{" +:+
      String.concat ", "
        (map (λ kv, repr_str (fst kv) +:+ ": " +:+ repr (snd kv)) d)
      +:+ "}"
  end.

(** [str(v)] *)
Definition str (v : pyval) : string :=
  match v with
  | PStr s => s
  | _ => repr v
  end.

Definition builtins : PyBuiltins :=
  {| str_strip := strip; json_loads := loads; py_str := str |}.
End Reference.

(** ** The Grid, its snapshot and its step *)

(** [baba/grid.py] is not among the sources: only its tests and its caller
    are.  The records and operations below follow the specification. *)

(** Modelled from the spec: the Object record of the engine (data model):
    [name], [x], [y], [is_text] and an optional [color]. *)
Record Object : Type := {
  name : string;
  x : Z;
  y : Z;
  is_text : bool;
  color : option string;
}.

(** Modelled from the spec: the Grid of the engine (data model): a
    [width x height] array of cells, each a collection of Objects, read
    [grid[y][x]] as the tests do, with the counter [steps] and the terminal
    flags [won] and [lost].  The Grid owns its Objects exclusively, so a
    cell holds them by value. *)
Record Grid : Type := {
  width : Z;
  height : Z;
  grid : list (list (list Object));
  steps : Z;
  won : bool;
  lost : bool;
}.

Definition in_bounds (g : Grid) (cx cy : Z) : bool :=
  ((0 <=? cx) && (cx <? width g) && (0 <=? cy) && (cy <? height g))%Z.

(** Modelled from the spec: [get_objects_at(x, y)] of the Grid, which fails
    with [OutOfBounds] (here [None]) outside the grid. *)
Definition get_objects_at (g : Grid) (cx cy : Z) : option (list Object) :=
  if in_bounds g cx cy then
    Some (default [] (row ← grid g !! Z.to_nat cy; row !! Z.to_nat cx))
  else None.

(** The multiset of object names stored under a cell. *)
Definition names_at (g : Grid) (cx cy : Z) : gmultiset string :=
  list_to_set_disj (name <$> default [] (get_objects_at g cx cy)).

(** Grids are mutable Python objects: a store maps the identity of each
    live Grid to its attributes. *)
Abbreviation loc := positive.
Abbreviation store := (gmap positive Grid).

(** Modelled from the spec: [Grid.copy()], a fully independent deep copy
    with the same objects per cell and the same [steps], [won] and [lost].
    It allocates a new Grid object; the cells are owned by value, so nothing
    of the source is shared. *)
Definition Grid_copy (self : loc) (h : store) : option (loc * store) :=
  g ← h !! self;
  let c := fresh (dom h) in
  Some (c, <[c := g]> h).

Section step.
(** Items 1 to 6 of the step resolver (rules, movement, pushes, overlaps,
    win and lose checks), which act on the cells and flags of the grid
    being stepped. *)
Variable resolve : Grid → string → Grid.

(** Modelled from the spec: the step resolver on the attributes of one
    Grid: items 1 to 6, then item 7, "Increment [steps]". *)
Definition step_resolver (g : Grid) (action : string) : Grid :=
  let g' := resolve g action in
  {| width := width g; height := height g; grid := grid g';
     steps := steps g + 1; won := won g'; lost := lost g' |}.

(** Modelled from the spec: [Grid.step(action)], which mutates [self] in
    place by the step resolver. *)
Definition Grid_step (self : loc) (action : string) (h : store)
  : option store :=
  g ← h !! self;
  Some (<[self := step_resolver g action]> h).
End step.

(** ** A small engine to run the harness on

    A reduced resolver (rules read off the text tiles, YOU objects moved
    unless out of bounds or stopped, the win and lose checks; no push,
    sink, defeat or transformation), one level in the manner of "simple",
    and the Environment contract around them. *)

Module Demo.

Definition property_words : list string :=
  ["you"; "win"; "stop"; "push"; "sink"; "defeat"; "move"].

Definition all_objects (g : Grid) : list Object := concat (concat (grid g)).

Definition at_cell (cx cy : Z) (o : Object) : bool :=
  ((x o =? cx) && (y o =? cy))%Z.

(** The words written at a cell. *)
Definition words_at (objs : list Object) (cx cy : Z) : list string :=
  name <$> List.filter (λ o, is_text o && at_cell cx cy o) objs.

Definition is_noun (w : string) : bool :=
  negb (String.eqb w "is") && negb (existsb (String.eqb w) property_words).

Definition same_rule (r1 r2 : string * string) : bool :=
  String.eqb (fst r1) (fst r2) && String.eqb (snd r1) (snd r2).

(** A list of rules without its repetitions. *)
Fixpoint collapse (rules : list (string * string)) : list (string * string) :=
  match rules with
  | [] => []
  | r :: rules =>
      if existsb (same_rule r) rules then collapse rules
      else r :: collapse rules
  end.

(** Every [NOUN IS WORD] read rightwards or downwards from a noun tile. *)
Definition scan_rules (objs : list Object) : list (string * string) :=
  collapse
    (o ← List.filter (λ o, is_text o && is_noun (name o)) objs;
     '(dx, dy) ← [(1, 0); (0, 1)];
     if existsb (String.eqb "is") (words_at objs (x o + dx) (y o + dy))
     then
       (λ w, (name o, w)) <$>
       List.filter (λ w, negb (String.eqb w "is"))
              (words_at objs (x o + 2 * dx) (y o + 2 * dy))
     else []).

Definition has_property (rules : list (string * string)) (o : Object)
    (p : string) : bool :=
  negb (is_text o) && existsb (same_rule (name o, p)) rules.

Definition vector (action : string) : Z * Z :=
  if String.eqb action "up" then (0, -1)
  else if String.eqb action "down" then (0, 1)
  else if String.eqb action "left" then (-1, 0)
  else if String.eqb action "right" then (1, 0)
  else (0, 0).

Definition place (w h : Z) (objs : list Object) : list (list (list Object)) :=
  (λ cy, (λ cx, List.filter (λ o, at_cell cx cy o) objs) <$> seqZ 0 w) <$> seqZ 0 h.

Definition move (g : Grid) (rules : list (string * string)) (d : Z * Z)
    (objs : list Object) (o : Object) : Object :=
  let tx := x o + fst d in
  let ty := y o + snd d in
  if has_property rules o "you" && in_bounds g tx ty &&
     negb (existsb (λ b, at_cell tx ty b && has_property rules b "stop") objs)
  then {| name := name o; x := tx; y := ty; is_text := is_text o;
          color := color o |}
  else o.

Definition resolve (g : Grid) (action : string) : Grid :=
  let objs := all_objects g in
  let moved := move g (scan_rules objs) (vector action) objs <$> objs in
  let rules := scan_rules moved in
  let you := List.filter (λ o, has_property rules o "you") moved in
  let win := List.filter (λ o, has_property rules o "win") moved in
  let won' :=
    won g || existsb (λ o, existsb (at_cell (x o) (y o)) win) you in
  {| width := width g; height := height g;
     grid := place (width g) (height g) moved;
     steps := steps g;
     won := won';
     lost := lost g || (negb won' && (length you =? 0)%nat) |}.

Definition tile (w : string) (cx cy : Z) (text : bool) : Object :=
  {| name := w; x := cx; y := cy; is_text := text; color := None |}.

(** BABA IS YOU and FLAG IS WIN on the top row, baba at (2, 5) and the flag
    at (12, 5). *)
Definition simple_layout : Grid :=
  {| width := 15; height := 10;
     grid := place 15 10
       [tile "baba" 0 0 true; tile "is" 1 0 true; tile "you" 2 0 true;
        tile "flag" 4 0 true; tile "is" 5 0 true; tile "win" 6 0 true;
        tile "baba" 2 5 false; tile "flag" 12 5 false];
     steps := 0; won := false; lost := false |}.

Definition empty_layout : Grid :=
  {| width := 1; height := 1; grid := [[[]]]; steps := 0; won := false;
     lost := false |}.

(** An Environment: a layout and the Grid now in play. *)
Record Environment : Type := { layout : Grid; current : Grid }.

Definition registry : list (string * env_class) :=
  [("simple", {| difficulty := Some (PInt 1) |});
   ("empty", {| difficulty := None |})].

Definition create (name : pyval) : Environment :=
  let l := if py_eq_str name "simple" then simple_layout else empty_layout in
  {| layout := l; current := l |}.

Definition reset (e : Environment) : Environment :=
  {| layout := layout e; current := layout e |}.

Definition object_dict (o : Object) : pyval :=
  PDict [("name", PStr (name o)); ("x", PInt (x o)); ("y", PInt (y o));
         ("is_text", PBool (is_text o))].

Definition to_dict (e : Environment) : pyval * Environment :=
  let g := current e in
  (PDict
     [("dimensions", PDict [("width", PInt (width g));
                            ("height", PInt (height g))]);
      ("objects", PList (object_dict <$> all_objects g));
      ("rules",
       PList ((λ r, PStr (fst r +:+ " is " +:+ snd r)) <$>
              scan_rules (all_objects g)));
      ("state", PDict [("won", PBool (won g)); ("lost", PBool (lost g));
                       ("steps", PInt (steps g))])],
   e).

Definition step (e : Environment) (action : pyval)
  : (pyval * pyval * pyval * pyval) * Environment :=
  let a := match action with PStr a => a | _ => "wait" end in
  let g := step_resolver resolve (current e) a in
  let e' := {| layout := layout e; current := g |} in
  (fst (to_dict e'),
   PFloat (if won g && negb (won (current e)) then "1.0" else "0.0"),
   PBool (won g || lost g),
   PDict [("steps", PInt (steps g))],
   e').

Definition envs : BabaEnvs :=
  {| Env := Environment; ENVIRONMENTS := registry;
     create_environment := create; env_reset := reset;
     env_to_dict := to_dict; env_step := step |}.

(** The harness on the reference runtime and this engine. *)
Definition harness_run : list string → outcome :=
  @run Reference.builtins envs.

Definition harness_handle
  : EvalHarness → pyval → result (EvalHarness * pyval * list call) :=
  @handle_command Reference.builtins envs.

Definition harness_init : EvalHarness := @init envs.

(** A line of input written with ['] for the double quote. *)
Fixpoint dq (s : string) : string :=
  match s with
  | String c s' =>
      String (if (Reference.code c =? 39)%N then ascii_of_N 34 else c) (dq s')
  | EmptyString => EmptyString
  end.

Definition newline : string := String (ascii_of_N 10) EmptyString.

(** A line as [sys.stdin] yields it, with its newline. *)
Definition line (s : string) : string := dq s +:+ newline.
End Demo.

(** ** The protocol seen from outside *)

(** The response to [quit]. *)
Definition goodbye : pyval :=
  PDict [("status", PStr "ok"); ("message", PStr "goodbye")].

(** The environment a [reset] request asks for:
    [cmd_data.get("env", "simple")]. *)
Definition requested_env (cmd_data : pyval) : pyval :=
  default (PStr "simple") (py_lookup cmd_data "env").

(** The environment asked for by the last [reset] of a session that was
    answered [ok]; [None] when there was none. *)
Definition last_reset_name (requests responses : list pyval) : pyval :=
  fold_left
    (λ name '(cmd_data, response),
      if is_cmd "reset" cmd_data && status_is "ok" response
      then requested_env cmd_data else name)
    (zip requests responses) PNone.

(** The two shapes of a response: an object whose [status] is [ok], or the
    object with [status] [error] and a [message]. *)
Definition answer (response : pyval) : Prop :=
  status_is "ok" response = true ∨
  ∃ message,
    response = PDict [("status", PStr "error"); ("message", PStr message)].

(** Whether [run] reads a line as a request: it is not empty once
    stripped. *)
Definition nonblank `{PyBuiltins} (line : string) : bool :=
  negb (String.eqb (str_strip line) "").

(** The requests [run] hands to [handle_command] when it reads the lines
    to the end: what the lines that are not blank decode to, the lines on
    which [json.loads] raises left out. *)
Fixpoint requests_of `{PyBuiltins} (stdin : list string) : list pyval :=
  match stdin with
  | [] => []
  | line :: rest =>
      if nonblank line then
        match json_loads (str_strip line) with
        | Loaded cmd_data => cmd_data :: requests_of rest
        | _ => requests_of rest
        end
      else requests_of rest
  end.

(** * Properties *)

(** ** Dictionaries and comparisons *)

Section dict_facts.
Context {V : Type}.
Implicit Types (d : list (string * V)) (k : string) (v : V).

Lemma dict_get_set_eq k v d : dict_get k (dict_set k v d) = Some v.
Proof.
  induction d as [|[k' v'] d IH]; simpl.
  - by rewrite String.eqb_refl.
  - destruct (String.eqb k k') eqn:E; simpl; by rewrite ?String.eqb_refl, ?E.
Qed.

Lemma dict_get_set_ne k k' v d :
  k ≠ k' → dict_get k (dict_set k' v d) = dict_get k d.
Proof.
  intros Hne. induction d as [|[k'' v''] d IH]; simpl.
  - by apply String.eqb_neq in Hne as ->.
  - destruct (String.eqb k' k'') eqn:E; simpl.
    + apply String.eqb_eq in E as <-.
      by apply String.eqb_neq in Hne as ->.
    + by rewrite IH.
Qed.

Lemma dict_keys_set k v d :
  ∀ j, j ∈ dict_keys (dict_set k v d) ↔ j = k ∨ j ∈ dict_keys d.
Proof.
  unfold dict_keys. induction d as [|[k' v'] d IH]; intros j; simpl.
  - rewrite elem_of_cons, elem_of_nil. tauto.
  - destruct (String.eqb k k') eqn:E; simpl.
    + apply String.eqb_eq in E as <-. rewrite elem_of_cons. tauto.
    + rewrite !elem_of_cons, IH. tauto.
Qed.

Lemma dict_has_true k d : dict_has k d = true ↔ k ∈ dict_keys d.
Proof.
  unfold dict_has. rewrite existsb_exists. split.
  - intros (j & Hj & E). apply String.eqb_eq in E as ->.
    by apply list_elem_of_In.
  - intros Hk. exists k. split; [by apply list_elem_of_In|].
    apply String.eqb_refl.
Qed.

Lemma dict_get_is_Some k d : is_Some (dict_get k d) ↔ k ∈ dict_keys d.
Proof.
  unfold dict_keys. induction d as [|[k' v'] d IH]; simpl.
  - split; [by intros [? ?]|by intros ?%elem_of_nil].
  - destruct (String.eqb k k') eqn:E.
    + apply String.eqb_eq in E as ->. split; [intros _; by left|eauto].
    + apply String.eqb_neq in E. rewrite IH, elem_of_cons. tauto.
Qed.
End dict_facts.

Lemma py_eq_str_true v s : py_eq_str v s = true ↔ v = PStr s.
Proof.
  destruct v; simpl; try (split; [discriminate|congruence]).
  rewrite String.eqb_eq. split; congruence.
Qed.

Lemma is_cmd_dict c d :
  is_cmd c (PDict d) = true ↔ dict_get "cmd" d = Some (PStr c).
Proof.
  unfold is_cmd; simpl. destruct (dict_get "cmd" d) as [v|]; [|done].
  rewrite py_eq_str_true. split; congruence.
Qed.

Lemma is_cmd_inv c cmd_data :
  is_cmd c cmd_data = true →
  ∃ d, cmd_data = PDict d ∧ dict_get "cmd" d = Some (PStr c).
Proof.
  destruct cmd_data; try discriminate. intros Hc%is_cmd_dict. eauto.
Qed.

Section harness_facts.
Context `{PyBuiltins} `{BabaEnvs}.

(** Case analysis along the branches of [handle_command] in hypothesis
    [Hh]. *)
Ltac branches Hh :=
  unfold handle_command, py_get in Hh; cbn [mbind result_bind] in Hh;
  repeat
    (match type of Hh with
     | context [py_eq_str ?v ?s] => destruct (py_eq_str v s) eqn:?
     | context [env ?s] => destruct (env s) eqn:?
     | context [py_in_dict ?v ?s] => destruct (py_in_dict v s) as [[]|] eqn:?
     | context [py_in_list ?v ?s] => destruct (py_in_list v s) eqn:?
     | context [env_to_dict ?s] => destruct (env_to_dict s) eqn:?
     | context [env_step ?s ?a] =>
         destruct (env_step s a) as [[[[? ?] ?] ?] ?] eqn:?
     end; cbn [mbind result_bind negb] in Hh; try discriminate).

Lemma py_in_list_true v l : py_in_list v l = true ↔ v ∈ PStr <$> l.
Proof.
  unfold py_in_list. rewrite existsb_exists, list_elem_of_fmap.
  split; intros (s & ? & ?); exists s.
  - split; [by apply py_eq_str_true|by apply list_elem_of_In].
  - split; [by apply list_elem_of_In|by apply py_eq_str_true].
Qed.

Lemma py_in_list_false v l : py_in_list v l = false ↔ v ∉ PStr <$> l.
Proof. rewrite <-py_in_list_true. by destruct (py_in_list v l). Qed.

Lemma cmd_default_is_cmd c d :
  c ≠ "" →
  py_eq_str (default (PStr "") (dict_get "cmd" d)) c = is_cmd c (PDict d).
Proof.
  intros Hc. unfold is_cmd; simpl. destruct (dict_get "cmd" d); [done|].
  simpl. by destruct c.
Qed.

(** The [step] branch, for a request that reaches it. *)
Lemma handle_step self d :
  dict_get "cmd" d = Some (PStr "step") →
  handle_command self (PDict d) =
  match env self with
  | None =>
      Ok (self, error_response "No environment loaded. Use 'reset' first.", [])
  | Some e =>
      let action := default (PStr "wait") (dict_get "action" d) in
      if negb (py_in_list action valid_actions) then
        Ok (self,
            error_response
              ("Invalid action: " +:+ py_str action +:+
               ". Valid actions: " +:+ valid_actions_str),
            [])
      else
        let '(_, reward, done, info, e) := env_step e action in
        let '(obs, e) := env_to_dict e in
        Ok ({| env := Some e; env_name := env_name self |},
            PDict [("status", PStr "ok"); ("observation", obs);
                   ("reward", reward); ("done", done); ("info", info)],
            [CallStep action; CallToDict])
  end.
Proof.
  intros Hc. unfold handle_command, py_get. cbn [mbind result_bind].
  by rewrite Hc.
Qed.

(** The [reset] branch, for a request that reaches it. *)
Lemma handle_reset self d :
  dict_get "cmd" d = Some (PStr "reset") →
  handle_command self (PDict d) =
  let name := default (PStr "simple") (dict_get "env" d) in
  registered ← py_in_dict name ENVIRONMENTS;
  if negb registered then
    Ok (self,
        error_response
          ("Unknown environment: " +:+ py_str name +:+
           ". Use 'list_envs' to see available environments."),
        [])
  else
    let '(obs, e) := env_to_dict (env_reset (create_environment name)) in
    Ok ({| env := Some e; env_name := name |},
        PDict [("status", PStr "ok"); ("env", name); ("observation", obs)],
        [CallCreate name; CallReset; CallToDict]).
Proof.
  intros Hc. unfold handle_command, py_get. cbn [mbind result_bind].
  by rewrite Hc.
Qed.

(** An environment is loaded after a request exactly when one was loaded
    before it or the request is a [reset] answered [ok]. *)
Lemma handle_command_loaded self cmd_data self' response calls :
  handle_command self cmd_data = Ok (self', response, calls) →
  is_Some (env self') ↔
  is_Some (env self) ∨
  is_cmd "reset" cmd_data && status_is "ok" response = true.
Proof.
  intros Hh. destruct cmd_data as [| | | | | |d]; try discriminate.
  rewrite <-(cmd_default_is_cmd "reset") by done.
  destruct (py_eq_str (default (PStr "") (dict_get "cmd" d)) "reset") eqn:Hr.
  - apply py_eq_str_true in Hr.
    unfold handle_command, py_get in Hh. cbn [mbind result_bind] in Hh.
    rewrite Hr in Hh. cbn [py_eq_str String.eqb Ascii.eqb Bool.eqb] in Hh.
    destruct (py_in_dict _ _) as [[]|]; cbn [mbind result_bind negb] in Hh;
      try discriminate.
    + destruct (env_to_dict _). inversion Hh; subst. simpl.
      split; [by right|eauto].
    + inversion Hh; subst. simpl. intuition discriminate.
  - rewrite andb_false_l. branches Hh.
    all: inversion Hh; subst; clear Hh; simpl.
    all: try (intuition (eauto || discriminate)).
    all: match goal with Hn : env _ = None |- _ => rewrite Hn end.
    all: split; [intros [? ?]|intros [[? ?]|?]]; discriminate.
Qed.

Lemma session_loaded requests : ∀ self self' responses,
  handle_all self requests = Ok (self', responses) →
  is_Some (env self') ↔
  is_Some (env self) ∨ reset_succeeded requests responses = true.
Proof.
  induction requests as [|cmd_data rest IH]; intros self self' responses Hs;
    simpl in Hs.
  - inversion Hs; subst. unfold reset_succeeded; simpl.
    intuition discriminate.
  - destruct (handle_command self cmd_data) as [[[s1 r1] c1]|] eqn:H1;
      [|discriminate].
    cbn [mbind result_bind] in Hs.
    destruct (handle_all s1 rest) as [[s2 rs]|] eqn:H2; [|discriminate].
    cbn [mbind result_bind] in Hs. inversion Hs; subst.
    rewrite (IH _ _ _ H2), (handle_command_loaded _ _ _ _ _ H1).
    unfold reset_succeeded. cbn [zip zip_with existsb].
    rewrite orb_true_iff. tauto.
Qed.

(** C8: whenever [handle_command] answers with status [error], the harness
    is as it was ([self.env] and [self.env_name] keep their values) and the
    [step] method of the environment has not been called. *)
Theorem error_leaves_state self cmd_data self' response calls :
  handle_command self cmd_data = Ok (self', response, calls) →
  status_is "error" response = true →
  self' = self ∧ ∀ action, CallStep action ∉ calls.
Proof.
  intros Hh Hs.
  destruct cmd_data as [| | | | | |d]; try discriminate.
  branches Hh.
  all: inversion Hh; subst; clear Hh; try discriminate.
  all: split; [done|]; intros a Ha; inversion Ha.
Qed.

(** C2: in a session started on a fresh harness, a [step] request is
    always answered, and the answer has status [error] exactly when no
    [reset] of the session has succeeded yet or the request supplies an
    action that is none of [up], [down], [left], [right], [wait]; otherwise
    it has status [ok] with [observation], [reward], [done] and [info]. *)
Theorem step_error_iff requests self responses cmd_data :
  handle_all init requests = Ok (self, responses) →
  is_cmd "step" cmd_data = true →
  ∃ self' response calls,
    handle_command self cmd_data = Ok (self', response, calls) ∧
    (status_is "error" response = true ↔
       reset_succeeded requests responses = false ∨
       ∃ action,
         py_lookup cmd_data "action" = Some action ∧
         action ∉ [PStr "up"; PStr "down"; PStr "left"; PStr "right";
                   PStr "wait"]) ∧
    (status_is "error" response = false →
       ∃ obs reward done info,
         response =
         PDict [("status", PStr "ok"); ("observation", obs);
                ("reward", reward); ("done", done); ("info", info)]).
Proof.
  intros Hs (d & -> & Hc)%is_cmd_inv.
  apply session_loaded in Hs. simpl in Hs.
  rewrite (handle_step _ _ Hc). simpl py_lookup.
  destruct (env self) as [e|] eqn:He.
  - assert (reset_succeeded requests responses = true) as ->.
    { destruct Hs as [[?|?] _]; [eauto|by destruct H1 as [? ?]|done]. }
    cbn zeta.
    destruct (py_in_list _ valid_actions) eqn:Hv; cbn [negb].
    + destruct (env_step _ _) as [[[[? reward] done] info] e1].
      destruct (env_to_dict e1) as [obs e2].
      eexists _, _, _. split; [done|]. split.
      * split; [discriminate|]. intros [?|(a & Ha & Hna)]; [done|].
        rewrite Ha in Hv. apply py_in_list_true in Hv. by destruct Hna.
      * eauto 10.
    + eexists _, _, _. split; [done|]. split; [|discriminate].
      split; [|done]. intros _. right.
      destruct (dict_get "action" d) as [a|]; [|discriminate].
      exists a. split; [done|]. by apply py_in_list_false in Hv.
  - eexists _, _, _. split; [done|]. split; [|discriminate].
    split; [|done]. intros _. left.
    destruct (reset_succeeded requests responses); [|done].
    destruct Hs as [_ Hs]. destruct Hs as [? ?]; [by right|done].
Qed.

(** C10: after a successful [reset], a [step] request with no [action]
    key is handled exactly as the same request with action [wait]: the
    environment is stepped with [wait] and the answer has status [ok]. *)
Theorem step_default_action requests self responses d :
  handle_all init requests = Ok (self, responses) →
  reset_succeeded requests responses = true →
  dict_get "cmd" d = Some (PStr "step") →
  dict_get "action" d = None →
  handle_command self (PDict d) =
  handle_command self (PDict (dict_set "action" (PStr "wait") d)) ∧
  ∃ e grid reward done info e1 obs e2,
    env self = Some e ∧
    env_step e (PStr "wait") = (grid, reward, done, info, e1) ∧
    env_to_dict e1 = (obs, e2) ∧
    handle_command self (PDict d) =
    Ok ({| env := Some e2; env_name := env_name self |},
        PDict [("status", PStr "ok"); ("observation", obs);
               ("reward", reward); ("done", done); ("info", info)],
        [CallStep (PStr "wait"); CallToDict]).
Proof.
  intros Hs Hr Hc Ha.
  apply session_loaded in Hs. destruct Hs as [_ [e He]]; [by right|].
  assert (dict_get "cmd" (dict_set "action" (PStr "wait") d)
          = Some (PStr "step")) as Hc'.
  { by rewrite dict_get_set_ne. }
  rewrite (handle_step _ _ Hc), (handle_step _ _ Hc').
  rewrite dict_get_set_eq, Ha, He. simpl.
  split; [done|].
  destruct (env_step e (PStr "wait")) as [[[[grid reward] done] info] e1]
    eqn:Hstep.
  destruct (env_to_dict e1) as [obs e2] eqn:Hobs.
  by exists e, grid, reward, done, info, e1, obs, e2.
Qed.

(** C4: a [reset] request naming a registered environment is answered
    with status [ok], the name, and the observation of the freshly reset
    environment; one naming an unregistered environment is answered with
    status [error] and a message, the harness unchanged. *)
Theorem reset_named self d (n : string) :
  dict_get "cmd" d = Some (PStr "reset") →
  dict_get "env" d = Some (PStr n) →
  (n ∈ dict_keys ENVIRONMENTS →
     ∃ obs e,
       env_to_dict (env_reset (create_environment (PStr n))) = (obs, e) ∧
       handle_command self (PDict d) =
       Ok ({| env := Some e; env_name := PStr n |},
           PDict [("status", PStr "ok"); ("env", PStr n);
                  ("observation", obs)],
           [CallCreate (PStr n); CallReset; CallToDict])) ∧
  (n ∉ dict_keys ENVIRONMENTS →
     ∃ message,
       handle_command self (PDict d) =
       Ok (self,
           PDict [("status", PStr "error"); ("message", PStr message)],
           [])).
Proof.
  intros Hc Hn. rewrite (handle_reset _ _ Hc), Hn. simpl.
  split; intros Hreg.
  - apply dict_has_true in Hreg as ->. simpl.
    destruct (env_to_dict _) as [obs e]. eauto.
  - destruct (dict_has n ENVIRONMENTS) eqn:E.
    + by apply dict_has_true in E.
    + simpl. eauto.
Qed.

(** C9: a [reset] request with no [env] key is handled exactly as the same
    request with [env] set to [simple]; with [simple] registered, that
    environment is loaded and the answer has status [ok]. *)
Theorem reset_default_env self d :
  dict_get "cmd" d = Some (PStr "reset") →
  dict_get "env" d = None →
  "simple" ∈ dict_keys ENVIRONMENTS →
  handle_command self (PDict d) =
  handle_command self (PDict (dict_set "env" (PStr "simple") d)) ∧
  ∃ obs e,
    env_to_dict (env_reset (create_environment (PStr "simple"))) = (obs, e) ∧
    handle_command self (PDict d) =
    Ok ({| env := Some e; env_name := PStr "simple" |},
        PDict [("status", PStr "ok"); ("env", PStr "simple");
               ("observation", obs)],
        [CallCreate (PStr "simple"); CallReset; CallToDict]).
Proof.
  intros Hc Hn Hreg.
  assert (dict_get "cmd" (dict_set "env" (PStr "simple") d)
          = Some (PStr "reset")) as Hc'.
  { by rewrite dict_get_set_ne. }
  rewrite (handle_reset _ _ Hc), (handle_reset _ _ Hc').
  rewrite dict_get_set_eq, Hn. simpl.
  split; [done|].
  apply dict_has_true in Hreg as ->. simpl.
  destruct (env_to_dict _) as [obs e]. eauto.
Qed.

Lemma dict_get_set k k' (v : pyval) d :
  dict_get k (dict_set k' v d) =
  if String.eqb k k' then Some v else dict_get k d.
Proof.
  destruct (String.eqb k k') eqn:E.
  - apply String.eqb_eq in E as ->. apply dict_get_set_eq.
  - apply String.eqb_neq in E. by apply dict_get_set_ne.
Qed.

(** The loop of the [list_envs] branch, from any accumulator. *)
Lemma difficulty_loop_keys (l : list (string * env_class)) :
  ∀ acc n,
    n ∈ dict_keys
          (fold_left
             (λ acc '(name, cls),
               dict_set name
                 (PDict [("difficulty", getattr_difficulty cls)]) acc)
             l acc)
    ↔ n ∈ dict_keys acc ∨ n ∈ dict_keys l.
Proof.
  induction l as [|[k cls] l IH]; intros acc n; simpl.
  - change (dict_keys (@nil (string * env_class))) with (@nil string).
    rewrite elem_of_nil. tauto.
  - rewrite IH, dict_keys_set.
    change (dict_keys ((k, cls) :: l)) with (k :: dict_keys l).
    rewrite elem_of_cons. tauto.
Qed.

Lemma difficulty_loop_values (P : pyval → Prop)
    (l : list (string * env_class)) :
  (∀ n cls, (n, cls) ∈ l → P (PDict [("difficulty", getattr_difficulty cls)])) →
  ∀ acc,
    (∀ n v, dict_get n acc = Some v → P v) →
    ∀ n v,
      dict_get n
        (fold_left
           (λ acc '(name, cls),
             dict_set name
               (PDict [("difficulty", getattr_difficulty cls)]) acc)
           l acc) = Some v →
      P v.
Proof.
  induction l as [|[k cls] l IH]; intros Hl acc Hacc n v; simpl.
  - apply Hacc.
  - apply IH.
    + intros n' cls' Hin. apply (Hl n' cls'). by right.
    + intros n' v'. rewrite dict_get_set.
      destruct (String.eqb n' k).
      * intros [= <-]. apply (Hl k cls). by left.
      * apply Hacc.
Qed.

(** C6: a [list_envs] request is answered with status [ok] and a mapping
    [envs] whose keys are exactly the registered names, each mapped to an
    object with an integer [difficulty], the [difficulty] attributes of the
    registered classes being integers. *)
Theorem list_envs_response self d :
  dict_get "cmd" d = Some (PStr "list_envs") →
  (∀ n cls v,
     (n, cls) ∈ ENVIRONMENTS → difficulty cls = Some v → ∃ k, v = PInt k) →
  ∃ envs,
    handle_command self (PDict d) =
    Ok (self, PDict [("status", PStr "ok"); ("envs", PDict envs)], []) ∧
    (∀ n, n ∈ dict_keys envs ↔ n ∈ dict_keys ENVIRONMENTS) ∧
    (∀ n, n ∈ dict_keys ENVIRONMENTS →
       ∃ k, dict_get n envs = Some (PDict [("difficulty", PInt k)])).
Proof.
  intros Hc Hint. exists envs_with_difficulty.
  assert (∀ n, n ∈ dict_keys envs_with_difficulty
               ↔ n ∈ dict_keys ENVIRONMENTS) as Hkeys.
  { intros n. unfold envs_with_difficulty.
    rewrite difficulty_loop_keys.
    change (dict_keys (@nil (string * pyval))) with (@nil string).
    rewrite elem_of_nil. tauto. }
  split; [|split; [done|]].
  - unfold handle_command, py_get. cbn [mbind result_bind].
    by rewrite Hc.
  - intros n [v Hv]%Hkeys%dict_get_is_Some. rewrite Hv.
    revert n v Hv. unfold envs_with_difficulty.
    apply (difficulty_loop_values
             (λ v, ∃ k, Some v = Some (PDict [("difficulty", PInt k)]))).
    + intros n cls Hin. unfold getattr_difficulty.
      destruct (difficulty cls) as [v|] eqn:Hd; simpl; [|by exists 1].
      destruct (Hint n cls v Hin Hd) as [k ->]. by exists k.
    + intros n v. discriminate.
Qed.

(** ** The loop of [run] *)

Lemma prints_nil o : prints [] o = o.
Proof. by destruct o. Qed.

Lemma prints_prints r1 r2 o : prints r1 (prints r2 o) = prints (r1 ++ r2) o.
Proof. unfold prints; simpl. by rewrite app_assoc. Qed.

(** A line that is blank once stripped is skipped. *)
Lemma blank_line_skipped self line rest :
  str_strip line = "" → run_loop self (line :: rest) = run_loop self rest.
Proof. intros Hb. simpl. by rewrite Hb. Qed.

(** A line that is not JSON is answered and the loop goes on, on the same
    harness. *)
Lemma invalid_line_answered self line detail rest :
  str_strip line ≠ "" →
  json_loads (str_strip line) = JSONDecodeError detail →
  run_loop self (line :: rest) =
  print (error_response ("Invalid JSON: " +:+ detail)) (run_loop self rest).
Proof.
  intros Hb%String.eqb_neq Hj. simpl. by rewrite Hb, Hj.
Qed.

(** A line that decodes to anything but an object ends the loop with an
    [AttributeError], nothing printed. *)
Lemma non_object_line_raises self line v rest :
  str_strip line ≠ "" →
  json_loads (str_strip line) = Loaded v →
  (∀ d, v ≠ PDict d) →
  run_loop self (line :: rest) =
  {| stdout := []; final := self; ended := Uncaught AttributeError |}.
Proof.
  intros Hb%String.eqb_neq Hj Hv. simpl. rewrite Hb, Hj.
  destruct v; try done. by destruct (Hv entries).
Qed.

(** A line on which [json.loads] raises something else than
    [JSONDecodeError] ends the loop with that exception, nothing printed:
    [run] catches [JSONDecodeError] only. *)
Lemma decoder_exception_raises self line e rest :
  str_strip line ≠ "" →
  json_loads (str_strip line) = LoadRaises e →
  run_loop self (line :: rest) =
  {| stdout := []; final := self; ended := Uncaught e |}.
Proof.
  intros Hb%String.eqb_neq Hj. simpl. by rewrite Hb, Hj.
Qed.

(** The exceptions [handle_command] lets through: a request that is not an
    object, and a [reset] whose [env] is a list or an object. *)
Lemma handle_command_raises self cmd_data e :
  handle_command self cmd_data = Raise e ↔
  (e = AttributeError ∧ ∀ d, cmd_data ≠ PDict d) ∨
  (e = TypeError ∧
   ∃ d name,
     cmd_data = PDict d ∧ dict_get "cmd" d = Some (PStr "reset") ∧
     dict_get "env" d = Some name ∧
     ((∃ l, name = PList l) ∨ (∃ l, name = PDict l))).
Proof.
  split.
  - intros Hh. destruct cmd_data as [| | | | | |d];
      try (left; split; [by inversion Hh|done]).
    right. unfold handle_command, py_get in Hh.
    cbn [mbind result_bind] in Hh.
    destruct (py_eq_str _ "list_envs"); [discriminate|].
    destruct (py_eq_str _ "reset") eqn:Hr.
    + apply py_eq_str_true in Hr.
      destruct (dict_get "cmd" d) as [c|] eqn:Hc; [|discriminate].
      simpl in Hr; subst c.
      destruct (dict_get "env" d) as [name|] eqn:Hn; simpl in Hh.
      * destruct name; simpl in Hh;
          repeat (match type of Hh with
                  | context [if ?b then _ else _] => destruct b
                  | context [env_to_dict ?x] => destruct (env_to_dict x)
                  end; try discriminate).
        all: try discriminate.
        all: inversion Hh; subst; split; [done|]; eauto 10.
      * repeat (match type of Hh with
                | context [if ?b then _ else _] => destruct b
                | context [env_to_dict ?x] => destruct (env_to_dict x)
                end; try discriminate).
    + branches Hh.
  - intros [[-> Hd]|(-> & d & name & -> & Hc & Hn & Hname)].
    + destruct cmd_data; try done. by destruct (Hd entries).
    + rewrite (handle_reset _ _ Hc), Hn.
      by destruct Hname as [[l ->]|[l ->]].
Qed.

(** Lines that leave the loop running are handled as a prefix. *)
Lemma run_loop_app before : ∀ self rest,
  ended (run_loop self before) = EndOfInput →
  run_loop self (before ++ rest) =
  prints (stdout (run_loop self before))
         (run_loop (final (run_loop self before)) rest).
Proof.
  induction before as [|line before IH]; intros self rest He.
  - simpl. by rewrite prints_nil.
  - simpl in He |- *.
    destruct (String.eqb (str_strip line) ""); [by apply IH|].
    destruct (json_loads (str_strip line)) as [cmd_data|detail|e];
      [| |discriminate].
    2:{ unfold print in *. rewrite IH by done. by rewrite prints_prints. }
    destruct (handle_command self cmd_data) as [[[self' r] ?]|];
      [|discriminate].
    destruct (py_get cmd_data "cmd" PNone) as [c|]; [|discriminate].
    destruct (py_eq_str c "quit"); [discriminate|].
    unfold print in *. rewrite IH by done. by rewrite prints_prints.
Qed.

(** X11: on input whose lines are blank, rejected by [json.loads] with a
    [JSONDecodeError], or decoded by it to an object (with a hashable [env]
    when the command is [reset]), the loop ends by end of input or by
    [quit]: no exception leaves [run]. *)
Lemma run_loop_ends stdin : ∀ self,
  Forall (λ line,
            str_strip line = "" ∨
            (∃ detail, json_loads (str_strip line) = JSONDecodeError detail) ∨
            ∃ d, json_loads (str_strip line) = Loaded (PDict d) ∧
                 (dict_get "cmd" d = Some (PStr "reset") →
                  ∀ name, dict_get "env" d = Some name →
                          hashable name = true)) stdin →
  ended (run_loop self stdin) = EndOfInput ∨
  ended (run_loop self stdin) = Quit.
Proof.
  induction stdin as [|line rest IH]; intros self Hall; [by left|].
  inversion Hall as [|? ? Hline Hrest]; subst. simpl.
  destruct (String.eqb (str_strip line) "") eqn:Hb; [by apply IH|].
  destruct Hline as [Hblank|[[detail Hj]|(d & Hj & Hname)]].
  - apply String.eqb_neq in Hb. by destruct Hb.
  - rewrite Hj. simpl. by apply IH.
  - rewrite Hj.
    destruct (handle_command self (PDict d)) as [[[self' r] ?]|e] eqn:Hh.
    + simpl. destruct (py_eq_str _ "quit"); [by right|by apply IH].
    + apply handle_command_raises in Hh
        as [[_ Hd]|(_ & d' & name & [= <-] & Hc & Hn & Hbad)].
      * by destruct (Hd d).
      * specialize (Hname Hc name Hn).
        by destruct Hbad as [[l ->]|[l ->]].
Qed.

(** C3, amended: a line the loop reaches, not blank once stripped, and on
    which [json.loads] raises [JSONDecodeError] is answered with status
    [error] and a message that begins with [Invalid JSON:], and the loop
    goes on with the lines after it, on the same harness. *)
Theorem invalid_json_answered before line detail after :
  ended (run before) = EndOfInput →
  str_strip line ≠ "" →
  json_loads (str_strip line) = JSONDecodeError detail →
  ∃ message,
    String.prefix "Invalid JSON:" message = true ∧
    run (before ++ line :: after) =
    prints (stdout (run before) ++
            [PDict [("status", PStr "error"); ("message", PStr message)]])
           (run_loop (final (run before)) after).
Proof.
  intros He Hb Hj. exists ("Invalid JSON: " +:+ detail). split; [done|].
  unfold run in *. rewrite run_loop_app by done.
  rewrite (invalid_line_answered _ _ _ _ Hb Hj).
  unfold print. by rewrite prints_prints.
Qed.

(** C7, amended: when the loop reaches a line whose JSON object has [cmd]
    equal to [quit] (no line before it has ended the loop), it prints the
    [goodbye] response for it and ends there: whatever lines follow,
    nothing more is printed and the harness is as the lines before left
    it. *)
Theorem quit_ends_run before line d after :
  ended (run before) = EndOfInput →
  str_strip line ≠ "" →
  json_loads (str_strip line) = Loaded (PDict d) →
  dict_get "cmd" d = Some (PStr "quit") →
  run (before ++ line :: after) =
  {| stdout := stdout (run before) ++
               [PDict [("status", PStr "ok"); ("message", PStr "goodbye")]];
     final := final (run before);
     ended := Quit |}.
Proof.
  intros He Hb%String.eqb_neq Hj Hc.
  unfold run in *. rewrite run_loop_app by done.
  cbn [run_loop]. rewrite Hb, Hj.
  unfold handle_command, py_get. cbn [mbind result_bind]. by rewrite Hc.
Qed.
End harness_facts.

(** ** The Grid snapshot *)

Section snapshot.
Variable resolve : Grid → string → Grid.

(** C5: [copy()] of a live Grid returns a new Grid with the same multiset
    of object names in every cell and the same [steps], [won] and [lost]; a
    [step] of the copy then adds one to the copy's [steps] and leaves the
    source as it was, [steps] included, and a [step] of the source leaves
    the copy as it was. *)
Theorem copy_is_snapshot (h : store) (self : loc) (g : Grid) :
  h !! self = Some g →
  ∃ c h1 gc,
    Grid_copy self h = Some (c, h1) ∧
    c ≠ self ∧
    h1 !! self = Some g ∧
    h1 !! c = Some gc ∧
    (∀ cx cy, names_at gc cx cy = names_at g cx cy) ∧
    (steps gc = steps g ∧ won gc = won g ∧ lost gc = lost g) ∧
    ∀ action,
      (∃ h2 gc',
         Grid_step resolve c action h1 = Some h2 ∧
         h2 !! c = Some gc' ∧
         steps gc' = steps g + 1 ∧
         h2 !! self = Some g) ∧
      (∃ h2 g',
         Grid_step resolve self action h1 = Some h2 ∧
         h2 !! self = Some g' ∧
         steps g' = steps g + 1 ∧
         h2 !! c = Some gc).
Proof.
  intros Hg. unfold Grid_copy. rewrite Hg. simpl.
  set (c := fresh (dom h)).
  assert (h !! c = None) as Hc.
  { apply not_elem_of_dom. apply is_fresh. }
  assert (c ≠ self) as Hne by congruence.
  exists c, (<[c := g]> h), g.
  split; [done|]. split; [done|].
  split; [by rewrite lookup_insert_ne|].
  split; [by rewrite lookup_insert_eq|].
  split; [done|]. split; [done|].
  intros action. unfold Grid_step. split.
  - rewrite lookup_insert_eq. simpl.
    eexists _, _. split; [done|].
    split; [by rewrite lookup_insert_eq|].
    split; [done|].
    by rewrite !lookup_insert_ne.
  - rewrite lookup_insert_ne, Hg by done. simpl.
    eexists _, _. split; [done|].
    split; [by rewrite lookup_insert_eq|].
    split; [done|].
    by rewrite lookup_insert_ne, lookup_insert_eq.
Qed.
End snapshot.

(** ** Sessions, responses and engine calls *)

Section protocol_facts.
Context `{PyBuiltins} `{BabaEnvs}.

(** Case analysis along the branches of [handle_command] in hypothesis
    [Hh]. *)
Ltac cases Hh :=
  unfold handle_command, py_get in Hh; cbn [mbind result_bind] in Hh;
  repeat
    (match type of Hh with
     | context [py_eq_str ?v ?s] => destruct (py_eq_str v s) eqn:?
     | context [env ?s] => destruct (env s) eqn:?
     | context [py_in_dict ?v ?s] => destruct (py_in_dict v s) as [[]|] eqn:?
     | context [py_in_list ?v ?s] => destruct (py_in_list v s) eqn:?
     | context [env_to_dict ?s] => destruct (env_to_dict s) eqn:?
     | context [env_step ?s ?a] =>
         destruct (env_step s a) as [[[[? ?] ?] ?] ?] eqn:?
     end; cbn [mbind result_bind negb] in Hh; try discriminate).

Lemma py_in_dict_true {V : Type} v (d : list (string * V)) :
  py_in_dict v d = Ok true → ∃ n, v = PStr n ∧ n ∈ dict_keys d.
Proof.
  destruct v; simpl; try discriminate.
  intros [= Hn]. apply dict_has_true in Hn. eauto.
Qed.

(** [env_name] after a request: the environment asked for when the request
    is a [reset] answered [ok], the name held before otherwise. *)
Lemma handle_command_name self cmd_data self' response calls :
  handle_command self cmd_data = Ok (self', response, calls) →
  env_name self' =
  if is_cmd "reset" cmd_data && status_is "ok" response
  then requested_env cmd_data else env_name self.
Proof.
  intros Hh. destruct cmd_data as [| | | | | |d]; try discriminate.
  rewrite <-(cmd_default_is_cmd "reset") by done.
  destruct (py_eq_str (default (PStr "") (dict_get "cmd" d)) "reset") eqn:Hr.
  - apply py_eq_str_true in Hr.
    unfold handle_command, py_get in Hh. cbn [mbind result_bind] in Hh.
    rewrite Hr in Hh. cbn [py_eq_str String.eqb Ascii.eqb Bool.eqb] in Hh.
    destruct (py_in_dict _ _) as [[]|]; cbn [mbind result_bind negb] in Hh;
      try discriminate.
    + destruct (env_to_dict _). by inversion Hh; subst.
    + by inversion Hh; subst.
  - rewrite andb_false_l. cases Hh.
    all: by inversion Hh; subst.
Qed.

(** The harness holds a name exactly when it holds an environment, and the
    name is then a registered one. *)
Lemma handle_command_named self cmd_data self' response calls :
  handle_command self cmd_data = Ok (self', response, calls) →
  match env self with
  | None => env_name self = PNone
  | Some _ => ∃ n, env_name self = PStr n ∧ n ∈ dict_keys ENVIRONMENTS
  end →
  match env self' with
  | None => env_name self' = PNone
  | Some _ => ∃ n, env_name self' = PStr n ∧ n ∈ dict_keys ENVIRONMENTS
  end.
Proof.
  intros Hh Hinv. destruct cmd_data as [| | | | | |d]; try discriminate.
  cases Hh.
  all: inversion Hh; subst; clear Hh; simpl.
  all: repeat match goal with
              | Hn : env _ = _ |- _ => rewrite Hn in *
              end; try done.
  by apply py_in_dict_true.
Qed.

Lemma session_name requests : ∀ self self' responses,
  handle_all self requests = Ok (self', responses) →
  env_name self' =
  fold_left
    (λ name '(cmd_data, response),
      if is_cmd "reset" cmd_data && status_is "ok" response
      then requested_env cmd_data else name)
    (zip requests responses) (env_name self).
Proof.
  induction requests as [|cmd_data rest IH]; intros self self' responses Hs;
    simpl in Hs.
  - by inversion Hs; subst.
  - destruct (handle_command self cmd_data) as [[[s1 r1] c1]|] eqn:H1;
      [|discriminate].
    cbn [mbind result_bind] in Hs.
    destruct (handle_all s1 rest) as [[s2 rs]|] eqn:H2; [|discriminate].
    cbn [mbind result_bind] in Hs. inversion Hs; subst.
    cbn [zip zip_with fold_left].
    by rewrite (IH _ _ _ H2), (handle_command_name _ _ _ _ _ H1).
Qed.

Lemma session_named requests : ∀ self self' responses,
  handle_all self requests = Ok (self', responses) →
  match env self with
  | None => env_name self = PNone
  | Some _ => ∃ n, env_name self = PStr n ∧ n ∈ dict_keys ENVIRONMENTS
  end →
  match env self' with
  | None => env_name self' = PNone
  | Some _ => ∃ n, env_name self' = PStr n ∧ n ∈ dict_keys ENVIRONMENTS
  end.
Proof.
  induction requests as [|cmd_data rest IH]; intros self self' responses Hs;
    simpl in Hs.
  - by inversion Hs; subst.
  - destruct (handle_command self cmd_data) as [[[s1 r1] c1]|] eqn:H1;
      [|discriminate].
    cbn [mbind result_bind] in Hs.
    destruct (handle_all s1 rest) as [[s2 rs]|] eqn:H2; [|discriminate].
    cbn [mbind result_bind] in Hs. inversion Hs; subst.
    intros Hinv. apply (IH _ _ _ H2).
    by apply (handle_command_named _ _ _ _ _ H1).
Qed.

(** X1: after any session on a fresh harness, [self.env_name] is the
    environment asked for by the last [reset] that was answered [ok]; it is
    [None] exactly as long as no environment is loaded, and the name of a
    registered environment once one is. *)
Theorem session_env_name requests self responses :
  handle_all init requests = Ok (self, responses) →
  env_name self = last_reset_name requests responses ∧
  (env self = None → env_name self = PNone) ∧
  (is_Some (env self) →
     ∃ n, env_name self = PStr n ∧ n ∈ dict_keys ENVIRONMENTS).
Proof.
  intros Hs. split; [apply (session_name _ _ _ _ Hs)|].
  pose proof (session_named _ _ _ _ Hs eq_refl) as Hinv.
  split.
  - intros He. by rewrite He in Hinv.
  - intros [e He]. by rewrite He in Hinv.
Qed.

(** X2: in a session on a fresh harness, an [info] request is answered
    with the error "No environment loaded" as long as no [reset] has
    succeeded, the harness untouched; afterwards it is answered [ok] with
    the name asked for by the last successful [reset], a registered one,
    and the observation of the environment in play, by one call of
    [to_dict]. *)
Theorem info_in_session requests self responses cmd_data :
  handle_all init requests = Ok (self, responses) →
  is_cmd "info" cmd_data = true →
  (reset_succeeded requests responses = false ∧
   handle_command self cmd_data =
   Ok (self, error_response "No environment loaded. Use 'reset' first.", []))
  ∨
  (reset_succeeded requests responses = true ∧
   ∃ e obs e' n,
     env self = Some e ∧ env_to_dict e = (obs, e') ∧
     last_reset_name requests responses = PStr n ∧
     n ∈ dict_keys ENVIRONMENTS ∧
     handle_command self cmd_data =
     Ok ({| env := Some e'; env_name := PStr n |},
         PDict [("status", PStr "ok"); ("env", PStr n); ("observation", obs)],
         [CallToDict])).
Proof.
  intros Hs (d & -> & Hc)%is_cmd_inv.
  pose proof (session_loaded _ _ _ _ Hs) as Hl. simpl in Hl.
  pose proof (session_named _ _ _ _ Hs eq_refl) as Hinv.
  pose proof (session_name _ _ _ _ Hs) as Hn. simpl in Hn.
  fold (last_reset_name requests responses) in Hn.
  unfold handle_command, py_get. cbn [mbind result_bind]. rewrite Hc.
  cbn [default py_eq_str String.eqb Ascii.eqb Bool.eqb].
  destruct (env self) as [e|] eqn:He.
  - right. split.
    { destruct Hl as [[[? ?]|?] _]; [eauto|done|done]. }
    destruct Hinv as (n & Hname & Hreg).
    destruct (env_to_dict e) as [obs e'] eqn:Hd.
    exists e, obs, e', n. rewrite <-Hn, Hname. by rewrite Hd.
  - left. split; [|done].
    destruct (reset_succeeded requests responses); [|done].
    destruct Hl as [_ [? ?]]; [by right|done].
Qed.

(** X3: [handle_command] returns a response exactly on a request that is
    an object and, when its [cmd] is [reset], asks for an environment that
    is hashable (not a list, not an object); on any other request it
    raises. *)
Theorem handle_command_returns_iff self cmd_data :
  (∃ out, handle_command self cmd_data = Ok out) ↔
  ∃ d, cmd_data = PDict d ∧
       (dict_get "cmd" d = Some (PStr "reset") →
        hashable (requested_env cmd_data) = true).
Proof.
  split.
  - intros [out Hh].
    destruct cmd_data as [| | | | | |d]; try discriminate.
    exists d. split; [done|]. intros Hc.
    destruct (hashable (requested_env (PDict d))) eqn:Hhash; [done|].
    assert (handle_command self (PDict d) = Raise TypeError) as Hr;
      [|congruence].
    apply handle_command_raises. right. split; [done|].
    unfold requested_env in Hhash. simpl in Hhash.
    destruct (dict_get "env" d) as [name|] eqn:Hn; [|discriminate].
    exists d, name. repeat split; try done.
    destruct name; try discriminate; eauto.
  - intros (d & -> & Hhash).
    destruct (handle_command self (PDict d)) as [out|e] eqn:Hh; [eauto|].
    apply handle_command_raises in Hh
      as [[_ Hd]|(_ & d' & name & [= <-] & Hc & Hn & Hbad)].
    + by destruct (Hd d).
    + specialize (Hhash Hc). unfold requested_env in Hhash.
      simpl in Hhash. rewrite Hn in Hhash.
      by destruct Hbad as [[l ->]|[l ->]].
Qed.

(** Every response of [handle_command] has one of the two shapes. *)
Lemma handle_command_answer self cmd_data self' response calls :
  handle_command self cmd_data = Ok (self', response, calls) →
  answer response.
Proof.
  intros Hh. destruct cmd_data as [| | | | | |d]; try discriminate.
  cases Hh.
  all: inversion Hh; subst; clear Hh.
  all: try (by left).
  all: right; unfold error_response; eauto.
Qed.

(** X5: [handle_command] calls [create_environment] only with the name of a
    registered environment, and [step] only on a loaded environment and
    with one of the five recognised actions. *)
Theorem engine_calls_guarded self cmd_data self' response calls :
  handle_command self cmd_data = Ok (self', response, calls) →
  (∀ name, CallCreate name ∈ calls →
     ∃ n, name = PStr n ∧ n ∈ dict_keys ENVIRONMENTS) ∧
  (∀ action, CallStep action ∈ calls →
     is_Some (env self) ∧
     action ∈ [PStr "up"; PStr "down"; PStr "left"; PStr "right";
               PStr "wait"]).
Proof.
  intros Hh. destruct cmd_data as [| | | | | |d]; try discriminate.
  cases Hh.
  all: inversion Hh; subst; clear Hh.
  all: split; intros v Hv.
  all: repeat (apply elem_of_cons in Hv as [Hv|Hv]; try discriminate).
  all: try (by apply elem_of_nil in Hv).
  - injection Hv as ->. by apply py_in_dict_true.
  - injection Hv as ->. split; [eauto|].
    by apply (py_in_list_true _ valid_actions).
Qed.

(** X6: the answer to a [reset] never depends on what the harness held
    before: from any two states the same request gets the same response
    and makes the same engine calls, and when it is answered [ok] it leaves
    the same state. *)
Theorem reset_ignores_previous_state self1 self2 d :
  dict_get "cmd" d = Some (PStr "reset") →
  match handle_command self1 (PDict d), handle_command self2 (PDict d) with
  | Ok (s1, r1, c1), Ok (s2, r2, c2) =>
      r1 = r2 ∧ c1 = c2 ∧ (status_is "ok" r1 = true → s1 = s2)
  | Raise e1, Raise e2 => e1 = e2
  | _, _ => False
  end.
Proof.
  intros Hc. rewrite !(handle_reset _ _ Hc). cbn zeta.
  destruct (py_in_dict _ ENVIRONMENTS) as [[]|e]; cbn [mbind result_bind negb].
  - by destruct (env_to_dict _).
  - split; [done|]. split; [done|]. discriminate.
  - done.
Qed.
(** X14: no request unloads the environment: once a session holds one, it
    holds one after every further request, whatever the answers. *)
Theorem environment_stays_loaded requests self self' responses :
  handle_all self requests = Ok (self', responses) →
  is_Some (env self) → is_Some (env self').
Proof.
  intros Hs Hl. apply (session_loaded _ _ _ _ Hs). by left.
Qed.
End protocol_facts.

(** ** What [run] prints *)

Section run_facts.
Context `{PyBuiltins} `{BabaEnvs}.

Lemma quit_test d :
  py_eq_str (default PNone (dict_get "cmd" d)) "quit" = is_cmd "quit" (PDict d).
Proof. unfold is_cmd; simpl. by destruct (dict_get "cmd" d). Qed.

(** Only a [quit] request is answered with [goodbye]. *)
Lemma handle_command_goodbye self d self' response calls :
  handle_command self (PDict d) = Ok (self', response, calls) →
  response = goodbye ↔ is_cmd "quit" (PDict d) = true.
Proof.
  intros Hh. rewrite <-(cmd_default_is_cmd "quit") by done.
  unfold handle_command, py_get in Hh. cbn [mbind result_bind] in Hh.
  repeat
    (match type of Hh with
     | context [py_eq_str ?v ?s] =>
         let E := fresh "E" in
         destruct (py_eq_str v s) eqn:E;
         [apply py_eq_str_true in E; rewrite E in *|]
     | context [env ?s] => destruct (env s) eqn:?
     | context [py_in_dict ?v ?s] => destruct (py_in_dict v s) as [[]|] eqn:?
     | context [py_in_list ?v ?s] => destruct (py_in_list v s) eqn:?
     | context [env_to_dict ?s] => destruct (env_to_dict s) eqn:?
     | context [env_step ?s ?a] =>
         destruct (env_step s a) as [[[[? ?] ?] ?] ?] eqn:?
     end; cbn [mbind result_bind negb] in Hh; try discriminate).
  all: inversion Hh; subst; clear Hh.
  all: split; intros Hq; try discriminate; try done.
  all: by rewrite Hq in *.
Qed.

(** X4: every response [run] prints is an object with [status] [ok], or the
    object with [status] [error] and a [message]: nothing else reaches
    stdout. *)
Theorem run_prints_answers stdin : ∀ self response,
  response ∈ stdout (run_loop self stdin) → answer response.
Proof.
  induction stdin as [|line rest IH]; intros self response; simpl.
  { by intros ?%elem_of_nil. }
  destruct (String.eqb (str_strip line) ""); [by apply IH|].
  destruct (json_loads (str_strip line)) as [cmd_data|detail|e];
    [| |by intros ?%elem_of_nil].
  2:{ simpl. intros [->|Hin]%elem_of_cons; [|by eapply IH].
      right. unfold error_response. eauto. }
  destruct (handle_command self cmd_data) as [[[self' r] calls]|] eqn:Hh;
    [|by intros ?%elem_of_nil].
  simpl. intros [->|Hin]%elem_of_cons.
  { by eapply handle_command_answer. }
  destruct (py_get cmd_data "cmd" PNone) as [c|]; [|by apply elem_of_nil in Hin].
  destruct (py_eq_str c "quit"); [by apply elem_of_nil in Hin|].
  by eapply IH.
Qed.

(** X7: [run] prints at most one response per line that is not blank, and
    exactly one per such line when it ends by end of input. *)
Theorem run_one_response_per_request stdin : ∀ self,
  (length (stdout (run_loop self stdin))
   ≤ length (List.filter nonblank stdin))%nat ∧
  (ended (run_loop self stdin) = EndOfInput →
   length (stdout (run_loop self stdin))
   = length (List.filter nonblank stdin)).
Proof.
  induction stdin as [|line rest IH]; intros self; simpl; [done|].
  assert (nonblank line = negb (String.eqb (str_strip line) "")) as -> by done.
  destruct (String.eqb (str_strip line) ""); simpl; [apply IH|].
  destruct (json_loads (str_strip line)) as [cmd_data|detail|e]; simpl;
    [| |split; [lia|discriminate]].
  2:{ destruct (IH self) as [Hle Heq]. split; [lia|].
      intros He. by rewrite Heq. }
  destruct (handle_command self cmd_data) as [[[self' r] calls]|]; simpl;
    [|split; [lia|discriminate]].
  destruct (py_get cmd_data "cmd" PNone) as [c|]; simpl;
    [|split; [lia|discriminate]].
  destruct (py_eq_str c "quit"); simpl; [split; [lia|discriminate]|].
  destruct (IH self') as [Hle Heq]. split; [lia|]. intros He. by rewrite Heq.
Qed.

(** X8: [goodbye] is printed exactly when the loop ends on a [quit], and it
    is then the last response printed. *)
Theorem goodbye_iff_quit stdin : ∀ self,
  (goodbye ∈ stdout (run_loop self stdin) ↔
   ended (run_loop self stdin) = Quit) ∧
  (ended (run_loop self stdin) = Quit →
   ∃ earlier, stdout (run_loop self stdin) = (earlier ++ [goodbye])%list).
Proof.
  induction stdin as [|line rest IH]; intros self; simpl.
  { split; [|discriminate]. split; [by intros ?%elem_of_nil|discriminate]. }
  destruct (String.eqb (str_strip line) ""); [apply IH|].
  destruct (json_loads (str_strip line)) as [cmd_data|detail|e]; simpl.
  3:{ split; [|discriminate]. split; [by intros ?%elem_of_nil|discriminate]. }
  2:{ destruct (IH self) as [Hiff Hlast]. split.
      - rewrite elem_of_cons, <-Hiff. split; [|tauto].
        intros [Hg|?]; [discriminate|done].
      - intros [earlier ->]%Hlast. by eexists (_ :: earlier). }
  destruct (handle_command self cmd_data) as [[[self' r] calls]|] eqn:Hh; simpl.
  2:{ split; [|discriminate]. split; [by intros ?%elem_of_nil|discriminate]. }
  destruct cmd_data as [| | | | | |d]; try discriminate.
  pose proof (handle_command_goodbye _ _ _ _ _ Hh) as Hg.
  cbn [py_get]. rewrite quit_test.
  destruct (is_cmd "quit" (PDict d)); simpl.
  - assert (r = goodbye) as -> by (by apply Hg).
    split; [|intros _; by exists []].
    split; [done|]. intros _. by left.
  - destruct (IH self') as [Hiff Hlast]. split.
    + rewrite elem_of_cons, <-Hiff. split; [|tauto].
      intros [Heq|?]; [|done]. symmetry in Heq. by apply Hg in Heq.
    + intros [earlier ->]%Hlast. by eexists (_ :: earlier).
Qed.

(** X9: what [run] has printed for the lines read so far never changes
    with the lines that follow, and once the loop has ended on a [quit] or
    an exception the lines that follow change nothing at all. *)
Theorem run_output_grows before : ∀ self after,
  stdout (run_loop self before)
    `prefix_of` stdout (run_loop self (before ++ after)) ∧
  (ended (run_loop self before) ≠ EndOfInput →
   run_loop self (before ++ after) = run_loop self before).
Proof.
  induction before as [|line before IH]; intros self after; simpl.
  { split; [apply prefix_nil|done]. }
  destruct (String.eqb (str_strip line) ""); [apply IH|].
  destruct (json_loads (str_strip line)) as [cmd_data|detail|e]; simpl;
    [| |done].
  2:{ destruct (IH self after) as [Hpre Heq]. split.
      - by apply prefix_cons.
      - intros He. unfold print. by rewrite Heq. }
  destruct (handle_command self cmd_data) as [[[self' r] calls]|]; simpl;
    [|done].
  destruct (py_get cmd_data "cmd" PNone) as [c|]; simpl; [|done].
  destruct (py_eq_str c "quit"); simpl; [done|].
  destruct (IH self' after) as [Hpre Heq]. split.
  - by apply prefix_cons.
  - intros He. unfold print. by rewrite Heq.
Qed.


(** Setting a key that a dict does not hold appends it. *)
Lemma dict_set_fresh {V : Type} k (v : V) d :
  k ∉ dict_keys d → dict_set k v d = (d ++ [(k, v)])%list.
Proof.
  unfold dict_keys. induction d as [|[k' v'] d IH]; simpl; [done|].
  rewrite not_elem_of_cons. intros [Hne Hk].
  apply String.eqb_neq in Hne as ->. by rewrite IH.
Qed.

Lemma difficulty_loop_exact (l : list (string * env_class)) : ∀ acc,
  NoDup (dict_keys acc ++ dict_keys l)%list →
  fold_left
    (λ acc '(name, cls),
      dict_set name (PDict [("difficulty", getattr_difficulty cls)]) acc)
    l acc =
  (acc ++ map (λ '(name, cls),
                 (name, PDict [("difficulty", getattr_difficulty cls)])) l)%list.
Proof.
  induction l as [|[k cls] l IH]; intros acc Hnd; simpl.
  - by rewrite app_nil_r.
  - change (dict_keys ((k, cls) :: l)) with (k :: dict_keys l) in Hnd.
    apply list.NoDup_app in Hnd as (Hacc & Hdisj & Hl).
    apply list.NoDup_cons in Hl as [Hk Hl].
    rewrite dict_set_fresh.
    2:{ intros Hin. apply (Hdisj k Hin). by left. }
    rewrite IH.
    + by rewrite <-app_assoc.
    + unfold dict_keys. rewrite map_app. simpl. rewrite <-app_assoc. simpl.
      apply list.NoDup_app. split; [done|]. split.
      * intros j Hj [->|Hin]%elem_of_cons.
        -- apply (Hdisj k Hj). by left.
        -- apply (Hdisj j Hj). by right.
      * by apply list.NoDup_cons.
Qed.

(** X12: the registry being a dict (no name twice), [list_envs] lists the
    environments in the registry's order, each with the [difficulty]
    attribute of its class, or 1 for a class without one; the harness is
    left as it was and the engine is not called. *)
Theorem list_envs_exact self d :
  dict_get "cmd" d = Some (PStr "list_envs") →
  NoDup (dict_keys ENVIRONMENTS) →
  handle_command self (PDict d) =
  Ok (self,
      PDict [("status", PStr "ok");
             ("envs",
              PDict (map (λ '(name, cls),
                            (name,
                             PDict [("difficulty",
                                     default (PInt 1) (difficulty cls))]))
                         ENVIRONMENTS))],
      []).
Proof.
  intros Hc Hnd. unfold handle_command, py_get. cbn [mbind result_bind].
  rewrite Hc. cbn [default py_eq_str String.eqb Ascii.eqb Bool.eqb].
  unfold envs_with_difficulty. by rewrite difficulty_loop_exact.
Qed.
(** X13: when [run] ends on an exception, one line is to blame: the loop
    was still running when it reached it, it is not blank, and either
    [json.loads] raises that exception on it or it decodes to a request on
    which [handle_command] raises it; every response to the lines before it
    has been printed, and nothing is printed for it or after it. *)
Theorem uncaught_pinpointed stdin : ∀ self e,
  ended (run_loop self stdin) = Uncaught e →
  ∃ before line after,
    stdin = (before ++ line :: after)%list ∧
    ended (run_loop self before) = EndOfInput ∧
    str_strip line ≠ "" ∧
    (json_loads (str_strip line) = LoadRaises e ∨
     ∃ cmd_data,
       json_loads (str_strip line) = Loaded cmd_data ∧
       handle_command (final (run_loop self before)) cmd_data = Raise e) ∧
    run_loop self stdin =
    {| stdout := stdout (run_loop self before);
       final := final (run_loop self before);
       ended := Uncaught e |}.
Proof.
  induction stdin as [|line rest IH]; intros self e; [discriminate|].
  cbn [run_loop].
  destruct (String.eqb (str_strip line) "") eqn:Hb.
  { intros (before & l & after & -> & He & Hl & Hr & Hrun)%IH.
    exists (line :: before), l, after.
    cbn [run_loop]. rewrite Hb. by repeat split. }
  destruct (json_loads (str_strip line)) as [cmd_data|detail|e'] eqn:Hj.
  3:{ cbn [ended]. intros [= <-]. exists [], line, rest.
      apply String.eqb_neq in Hb. repeat split; try done. by left. }
  2:{ cbn [print prints ended].
      intros (before & l & after & -> & He & Hl & Hr & Hrun)%IH.
      exists (line :: before), l, after.
      cbn [run_loop]. rewrite Hb, Hj. cbn [print prints ended final stdout].
      repeat split; try done. by rewrite Hrun. }
  destruct (handle_command self cmd_data) as [[[self' r] calls]|e'] eqn:Hh.
  2:{ cbn [ended]. intros [= <-]. exists [], line, rest.
      apply String.eqb_neq in Hb. repeat split; try done. right. eauto. }
  destruct cmd_data as [| | | | | |d]; try discriminate.
  cbn [py_get]. destruct (py_eq_str _ "quit") eqn:Hq; [discriminate|].
  cbn [print prints ended].
  intros (before & l & after & -> & He & Hl & Hr & Hrun)%IH.
  exists (line :: before), l, after.
  cbn [run_loop]. rewrite Hb, Hj, Hh. cbn [py_get]. rewrite Hq.
  cbn [print prints ended final stdout].
  repeat split; try done. by rewrite Hrun.
Qed.
(** X15: lines that are blank or not JSON never touch the harness: when
    [run] reads its input to the end, the harness it leaves is the one the
    session of the decoded requests leaves, and the responses of that
    session are printed in order (among the errors for the lines that are
    not JSON). *)
Theorem run_state_from_requests stdin : ∀ self,
  ended (run_loop self stdin) = EndOfInput →
  ∃ responses,
    handle_all self (requests_of stdin)
    = Ok (final (run_loop self stdin), responses) ∧
    responses `sublist_of` stdout (run_loop self stdin).
Proof.
  induction stdin as [|line rest IH]; intros self; cbn [run_loop requests_of].
  { intros _. by exists []. }
  unfold nonblank.
  destruct (String.eqb (str_strip line) ""); cbn [negb]; [apply IH|].
  destruct (json_loads (str_strip line)) as [cmd_data|detail|e];
    [| |discriminate].
  2:{ cbn [print prints ended final stdout].
      intros (responses & Hs & Hsub)%IH. exists responses.
      split; [done|]. by apply sublist_cons. }
  destruct (handle_command self cmd_data) as [[[self' r] calls]|] eqn:Hh;
    [|discriminate].
  destruct (py_get cmd_data "cmd" PNone) as [c|]; [|discriminate].
  destruct (py_eq_str c "quit"); [discriminate|].
  cbn [print prints ended final stdout].
  intros (responses & Hs & Hsub)%IH. exists (r :: responses).
  cbn [handle_all mbind result_bind]. rewrite Hh.
  cbn [mbind result_bind]. rewrite Hs. cbn [mbind result_bind].
  split; [done|]. by apply sublist_skip.
Qed.
End run_facts.

(** ** The harness on concrete input *)

(** A session of three lines: a [step] before any [reset], then [quit];
    the third line is not read. *)
Example run_session :
  Demo.harness_run
    [Demo.line "{'cmd': 'step'}"; Demo.line "{'cmd': 'quit'}";
     Demo.line "{'cmd': 'reset'}"] =
  {| stdout :=
       [PDict [("status", PStr "error");
               ("message", PStr "No environment loaded. Use 'reset' first.")];
        PDict [("status", PStr "ok"); ("message", PStr "goodbye")]];
     final := Demo.harness_init;
     ended := Quit |}.
Proof. reflexivity. Qed.

(** C1: a line holding a JSON value that is not an object ([42]) makes
    [handle_command] raise [AttributeError]; the loop ends there with nothing
    printed, the [quit] after it unanswered.  A [reset] whose [env] is a
    list ends it with [TypeError] in the same way. *)
Theorem non_object_request_escapes :
  Reference.loads (Reference.strip (Demo.line "42")) = Loaded (PInt 42) ∧
  Demo.harness_run [Demo.line "42"; Demo.line "{'cmd': 'quit'}"] =
  {| stdout := []; final := Demo.harness_init;
     ended := Uncaught AttributeError |} ∧
  Demo.harness_run [Demo.line "{'cmd': 'reset', 'env': []}"] =
  {| stdout := []; final := Demo.harness_init; ended := Uncaught TypeError |}.
Proof. split; [reflexivity|]. split; reflexivity. Qed.

(** C3, as stated, fails on a blank line: it is not valid JSON, and the
    loop prints no response for it. *)
Lemma blank_line_unanswered :
  Reference.loads Demo.newline = JSONDecodeError "Expecting value" ∧
  ¬ ∃ response,
      response ∈ stdout (Demo.harness_run [Demo.newline]) ∧
      status_is "error" response = true.
Proof.
  split; [reflexivity|].
  intros (response & Hin & _).
  change (stdout (Demo.harness_run [Demo.newline])) with (@nil pyval) in Hin.
  by apply elem_of_nil in Hin.
Qed.

(** C7, as stated, fails on input that holds a [quit] line the loop never
    reaches: of two [quit] lines only the first is answered, and a [quit]
    line after a line on which the loop dies is not answered at all. *)
Lemma quit_line_unanswered :
  Reference.loads (Reference.strip (Demo.line "{'cmd': 'quit'}"))
  = Loaded (PDict [("cmd", PStr "quit")]) ∧
  Demo.harness_run [Demo.line "{'cmd': 'quit'}"; Demo.line "{'cmd': 'quit'}"] =
  {| stdout := [goodbye]; final := Demo.harness_init; ended := Quit |} ∧
  Demo.harness_run [Demo.line "42"; Demo.line "{'cmd': 'quit'}"] =
  {| stdout := []; final := Demo.harness_init;
     ended := Uncaught AttributeError |}.
Proof. split; [reflexivity|]. split; reflexivity. Qed.

(** A line on which [json.loads] raises something else than
    [JSONDecodeError] ends the loop as well: an integer of 4301 digits
    ([ValueError]), 1001 opening brackets ([RecursionError]). *)
Example decoder_exception_escapes :
  let digits := Demo.line (String.concat "" (replicate 4301 "7")) in
  let brackets := Demo.line (String.concat "" (replicate 1001 "[")) in
  let quit := Demo.line "{'cmd': 'quit'}" in
  (stdout (Demo.harness_run [digits; quit]) = [] ∧
   ended (Demo.harness_run [digits; quit]) = Uncaught ValueError) ∧
  (stdout (Demo.harness_run [brackets; quit]) = [] ∧
   ended (Demo.harness_run [brackets; quit]) = Uncaught RecursionError).
Proof. repeat split; vm_compute; reflexivity. Qed.

(** ** The theorems at concrete requests *)

#[local] Existing Instance Reference.builtins.
#[local] Existing Instance Demo.envs.

(** [error_leaves_state] on a harness that holds an environment already
    stepped once: a [step] with an unknown action and a [reset] to an
    unknown environment are both answered with an error and leave it. *)
Lemma error_leaves_state_witness :
  ∃ loaded responses,
    handle_all Demo.harness_init
      [PDict [("cmd", PStr "reset")];
       PDict [("cmd", PStr "step"); ("action", PStr "right")]]
    = Ok (loaded, responses) ∧
    is_Some (env loaded) ∧ env_name loaded = PStr "simple" ∧
    (∃ self' response calls,
       Demo.harness_handle loaded
         (PDict [("cmd", PStr "step"); ("action", PStr "jump")])
       = Ok (self', response, calls) ∧
       status_is "error" response = true ∧
       self' = loaded ∧ ∀ action, CallStep action ∉ calls) ∧
    (∃ self' response calls,
       Demo.harness_handle loaded
         (PDict [("cmd", PStr "reset"); ("env", PStr "keke")])
       = Ok (self', response, calls) ∧
       status_is "error" response = true ∧
       self' = loaded ∧ ∀ action, CallStep action ∉ calls).
Proof.
  eexists _, _. split; [reflexivity|].
  split; [by eexists|]. split; [reflexivity|].
  split.
  - eexists _, _, _. split; [reflexivity|]. split; [reflexivity|].
    eapply (@error_leaves_state Reference.builtins Demo.envs _
              (PDict [("cmd", PStr "step"); ("action", PStr "jump")]));
      reflexivity.
  - eexists _, _, _. split; [reflexivity|]. split; [reflexivity|].
    eapply (@error_leaves_state Reference.builtins Demo.envs _
              (PDict [("cmd", PStr "reset"); ("env", PStr "keke")]));
      reflexivity.
Defined.

(** [step_error_iff] on the reference runtime and the small engine. *)
Lemma step_error_iff_witness :
  ∃ self responses,
    @handle_all Reference.builtins Demo.envs Demo.harness_init
      [PDict [("cmd", PStr "reset")]] = Ok (self, responses) ∧
    ∃ self' response calls,
      Demo.harness_handle self
        (PDict [("cmd", PStr "step"); ("action", PStr "jump")])
      = Ok (self', response, calls) ∧
      (status_is "error" response = true ↔
         @reset_succeeded [PDict [("cmd", PStr "reset")]] responses = false ∨
         ∃ action,
           py_lookup (PDict [("cmd", PStr "step"); ("action", PStr "jump")])
             "action" = Some action ∧
           action ∉ [PStr "up"; PStr "down"; PStr "left"; PStr "right";
                     PStr "wait"]) ∧
      (status_is "error" response = false →
         ∃ obs reward done info,
           response =
           PDict [("status", PStr "ok"); ("observation", obs);
                  ("reward", reward); ("done", done); ("info", info)]).
Proof.
  eexists _, _. split; [reflexivity|].
  apply (@step_error_iff Reference.builtins Demo.envs
           [PDict [("cmd", PStr "reset")]]);
    reflexivity.
Defined.

(** [step_default_action] on the reference runtime and the small engine. *)
Lemma step_default_action_witness :
  ∃ self responses,
    @handle_all Reference.builtins Demo.envs Demo.harness_init
      [PDict [("cmd", PStr "reset")]] = Ok (self, responses) ∧
    @reset_succeeded [PDict [("cmd", PStr "reset")]] responses = true ∧
    Demo.harness_handle self (PDict [("cmd", PStr "step")]) =
    Demo.harness_handle self
      (PDict [("cmd", PStr "step"); ("action", PStr "wait")]) ∧
    ∃ e grid reward done info e1 obs e2,
      env self = Some e ∧
      Demo.step e (PStr "wait") = (grid, reward, done, info, e1) ∧
      Demo.to_dict e1 = (obs, e2) ∧
      Demo.harness_handle self (PDict [("cmd", PStr "step")]) =
      Ok ({| env := Some e2; env_name := env_name self |},
          PDict [("status", PStr "ok"); ("observation", obs);
                 ("reward", reward); ("done", done); ("info", info)],
          [CallStep (PStr "wait"); CallToDict]).
Proof.
  eexists _, _. split; [reflexivity|].
  split; [reflexivity|].
  eapply (@step_default_action Reference.builtins Demo.envs
            [PDict [("cmd", PStr "reset")]] _ _ [("cmd", PStr "step")]);
    reflexivity.
Defined.

(** [reset_named] on the reference runtime and the small engine. *)
Lemma reset_named_witness :
  (∃ obs e,
     Demo.to_dict (Demo.reset (Demo.create (PStr "simple"))) = (obs, e) ∧
     Demo.harness_handle Demo.harness_init
       (PDict [("cmd", PStr "reset"); ("env", PStr "simple")]) =
     Ok ({| env := Some e; env_name := PStr "simple" |},
         PDict [("status", PStr "ok"); ("env", PStr "simple");
                ("observation", obs)],
         [CallCreate (PStr "simple"); CallReset; CallToDict])) ∧
  (∃ message,
     Demo.harness_handle Demo.harness_init
       (PDict [("cmd", PStr "reset"); ("env", PStr "keke")]) =
     Ok (Demo.harness_init,
         PDict [("status", PStr "error"); ("message", PStr message)], [])).
Proof.
  split.
  - apply (proj1 (@reset_named Reference.builtins Demo.envs Demo.harness_init
                    [("cmd", PStr "reset"); ("env", PStr "simple")] "simple"
                    eq_refl eq_refl)).
    apply dict_has_true. reflexivity.
  - apply (proj2 (@reset_named Reference.builtins Demo.envs Demo.harness_init
                    [("cmd", PStr "reset"); ("env", PStr "keke")] "keke"
                    eq_refl eq_refl)).
    intros Hin%dict_has_true. discriminate.
Defined.

(** [reset_default_env] on the reference runtime and the small engine. *)
Lemma reset_default_env_witness :
  Demo.harness_handle Demo.harness_init (PDict [("cmd", PStr "reset")]) =
  Demo.harness_handle Demo.harness_init
    (PDict [("cmd", PStr "reset"); ("env", PStr "simple")]) ∧
  ∃ obs e,
    Demo.to_dict (Demo.reset (Demo.create (PStr "simple"))) = (obs, e) ∧
    Demo.harness_handle Demo.harness_init (PDict [("cmd", PStr "reset")]) =
    Ok ({| env := Some e; env_name := PStr "simple" |},
        PDict [("status", PStr "ok"); ("env", PStr "simple");
               ("observation", obs)],
        [CallCreate (PStr "simple"); CallReset; CallToDict]).
Proof.
  apply (@reset_default_env Reference.builtins Demo.envs Demo.harness_init
           [("cmd", PStr "reset")] eq_refl eq_refl).
  apply dict_has_true. reflexivity.
Defined.

(** [list_envs_response] on the reference runtime and the small engine. *)
Lemma list_envs_response_witness :
  ∃ envs,
    Demo.harness_handle Demo.harness_init (PDict [("cmd", PStr "list_envs")]) =
    Ok (Demo.harness_init,
        PDict [("status", PStr "ok"); ("envs", PDict envs)], []) ∧
    (∀ n, n ∈ dict_keys envs ↔ n ∈ dict_keys Demo.registry) ∧
    (∀ n, n ∈ dict_keys Demo.registry →
       ∃ k, dict_get n envs = Some (PDict [("difficulty", PInt k)])).
Proof.
  apply (@list_envs_response Reference.builtins Demo.envs Demo.harness_init
           [("cmd", PStr "list_envs")] eq_refl).
  intros n cls v Hin Hd.
  apply list_elem_of_In in Hin. simpl in Hin.
  destruct Hin as [[= <- <-]|[[= <- <-]|[]]]; simpl in Hd.
  - exists 1. congruence.
  - discriminate.
Defined.

(** [quit_ends_run] on the reference runtime and the small engine. *)
Lemma quit_ends_run_witness :
  let before := [Demo.line "{'cmd': 'list_envs'}"; Demo.line "{'cmd': 'info'}"] in
  Demo.harness_run
    (before ++ Demo.line "{'cmd': 'quit'}" :: [Demo.line "{'cmd': 'reset'}"]) =
  {| stdout := stdout (Demo.harness_run before) ++
               [PDict [("status", PStr "ok"); ("message", PStr "goodbye")]];
     final := final (Demo.harness_run before);
     ended := Quit |}.
Proof.
  apply (@quit_ends_run Reference.builtins Demo.envs _ _
           [("cmd", PStr "quit")]).
  - reflexivity.
  - discriminate.
  - reflexivity.
  - reflexivity.
Defined.

(** [invalid_json_answered] on the reference runtime and the small engine. *)
Lemma invalid_json_answered_witness :
  let before := [Demo.line "{'cmd': 'reset'}"] in
  ∃ message,
    String.prefix "Invalid JSON:" message = true ∧
    Demo.harness_run
      (before ++ Demo.line "{'cmd': step}" :: [Demo.line "{'cmd': 'info'}"]) =
    prints (stdout (Demo.harness_run before) ++
            [PDict [("status", PStr "error"); ("message", PStr message)]])
           (@run_loop Reference.builtins Demo.envs
              (final (Demo.harness_run before))
              [Demo.line "{'cmd': 'info'}"]).
Proof.
  apply (@invalid_json_answered Reference.builtins Demo.envs _ _
           "Expecting value").
  - reflexivity.
  - discriminate.
  - reflexivity.
Defined.

(** [copy_is_snapshot] on the reference runtime and the small engine. *)
Lemma copy_is_snapshot_witness :
  let h : store := {[ 1%positive := Demo.simple_layout ]} in
  ∃ c h1 gc,
    Grid_copy 1%positive h = Some (c, h1) ∧
    c ≠ 1%positive ∧
    h1 !! 1%positive = Some Demo.simple_layout ∧
    h1 !! c = Some gc ∧
    (∀ cx cy, names_at gc cx cy = names_at Demo.simple_layout cx cy) ∧
    (steps gc = steps Demo.simple_layout ∧ won gc = won Demo.simple_layout ∧
     lost gc = lost Demo.simple_layout) ∧
    ∀ action,
      (∃ h2 gc',
         Grid_step Demo.resolve c action h1 = Some h2 ∧
         h2 !! c = Some gc' ∧
         steps gc' = steps Demo.simple_layout + 1 ∧
         h2 !! 1%positive = Some Demo.simple_layout) ∧
      (∃ h2 g',
         Grid_step Demo.resolve 1%positive action h1 = Some h2 ∧
         h2 !! 1%positive = Some g' ∧
         steps g' = steps Demo.simple_layout + 1 ∧
         h2 !! c = Some gc).
Proof.
  apply (copy_is_snapshot Demo.resolve). apply lookup_singleton_eq.
Defined.

(** ** Further properties at concrete requests *)

(** [session_env_name] on a session that resets and steps. *)
Lemma session_env_name_witness :
  let requests :=
    [PDict [("cmd", PStr "reset")];
     PDict [("cmd", PStr "step"); ("action", PStr "left")]] in
  ∃ self responses,
    handle_all Demo.harness_init requests = Ok (self, responses) ∧
    env_name self = last_reset_name requests responses ∧
    (env self = None → env_name self = PNone) ∧
    (is_Some (env self) →
       ∃ n, env_name self = PStr n ∧ n ∈ dict_keys Demo.registry).
Proof.
  eexists _, _. split; [reflexivity|].
  eapply (@session_env_name Reference.builtins Demo.envs). reflexivity.
Defined.

(** [info_in_session] after a [reset] that names no environment. *)
Lemma info_in_session_witness :
  let requests := [PDict [("cmd", PStr "reset")]] in
  let cmd_data := PDict [("cmd", PStr "info")] in
  ∃ self responses,
    handle_all Demo.harness_init requests = Ok (self, responses) ∧
    ((reset_succeeded requests responses = false ∧
      handle_command self cmd_data =
      Ok (self, error_response "No environment loaded. Use 'reset' first.",
          []))
     ∨
     (reset_succeeded requests responses = true ∧
      ∃ e obs e' n,
        env self = Some e ∧ Demo.to_dict e = (obs, e') ∧
        last_reset_name requests responses = PStr n ∧
        n ∈ dict_keys Demo.registry ∧
        handle_command self cmd_data =
        Ok ({| env := Some e'; env_name := PStr n |},
            PDict [("status", PStr "ok"); ("env", PStr n);
                   ("observation", obs)],
            [CallToDict]))).
Proof.
  eexists _, _. split; [reflexivity|].
  eapply (@info_in_session Reference.builtins Demo.envs); reflexivity.
Defined.

(** [run_prints_answers] on an [info] sent before any [reset]. *)
Lemma run_prints_answers_witness :
  let response :=
    error_response "No environment loaded. Use 'reset' first." in
  response ∈ stdout (Demo.harness_run [Demo.line "{'cmd': 'info'}"]) ∧
  answer response.
Proof.
  assert (error_response "No environment loaded. Use 'reset' first."
          ∈ stdout (Demo.harness_run [Demo.line "{'cmd': 'info'}"])) as Hin.
  { change (stdout (Demo.harness_run [Demo.line "{'cmd': 'info'}"]))
      with [error_response "No environment loaded. Use 'reset' first."].
    by left. }
  split; [exact Hin|].
  exact (@run_prints_answers Reference.builtins Demo.envs _ _ _ Hin).
Defined.

(** [engine_calls_guarded] on a [reset]. *)
Lemma engine_calls_guarded_witness :
  ∃ self' response calls,
    Demo.harness_handle Demo.harness_init (PDict [("cmd", PStr "reset")])
    = Ok (self', response, calls) ∧
    (∀ name, CallCreate name ∈ calls →
       ∃ n, name = PStr n ∧ n ∈ dict_keys Demo.registry) ∧
    (∀ action, CallStep action ∈ calls →
       is_Some (env Demo.harness_init) ∧
       action ∈ [PStr "up"; PStr "down"; PStr "left"; PStr "right";
                 PStr "wait"]).
Proof.
  eexists _, _, _. split; [reflexivity|].
  eapply (@engine_calls_guarded Reference.builtins Demo.envs
            Demo.harness_init (PDict [("cmd", PStr "reset")])).
  reflexivity.
Defined.

(** [reset_ignores_previous_state] from a fresh harness and from one that
    holds another environment. *)
Lemma reset_ignores_previous_state_witness :
  let d := [("cmd", PStr "reset"); ("env", PStr "simple")] in
  let loaded :=
    {| env := Some (Demo.create (PStr "empty")); env_name := PStr "empty" |} in
  match Demo.harness_handle Demo.harness_init (PDict d),
        Demo.harness_handle loaded (PDict d) with
  | Ok (s1, r1, c1), Ok (s2, r2, c2) =>
      r1 = r2 ∧ c1 = c2 ∧ (status_is "ok" r1 = true → s1 = s2)
  | Raise e1, Raise e2 => e1 = e2
  | _, _ => False
  end.
Proof.
  apply (@reset_ignores_previous_state Reference.builtins Demo.envs).
  reflexivity.
Defined.


(** [run_loop_ends] on a request, a blank line and a line that is not
    JSON. *)
Lemma run_loop_ends_witness :
  let stdin :=
    [Demo.line "{'cmd': 'list_envs'}"; Demo.newline; Demo.line "{"] in
  ended (Demo.harness_run stdin) = EndOfInput ∨
  ended (Demo.harness_run stdin) = Quit.
Proof.
  apply (@run_loop_ends Reference.builtins Demo.envs).
  repeat apply List.Forall_cons; [| | |apply List.Forall_nil].
  - right. right. exists [("cmd", PStr "list_envs")].
    split; [reflexivity|discriminate].
  - left. reflexivity.
  - right. left. eexists. reflexivity.
Defined.

(** [list_envs_exact] on the registry of the small engine. *)
Lemma list_envs_exact_witness :
  Demo.harness_handle Demo.harness_init (PDict [("cmd", PStr "list_envs")]) =
  Ok (Demo.harness_init,
      PDict [("status", PStr "ok");
             ("envs",
              PDict (map (λ '(name, cls),
                            (name,
                             PDict [("difficulty",
                                     default (PInt 1) (difficulty cls))]))
                         Demo.registry))],
      []).
Proof.
  apply (@list_envs_exact Reference.builtins Demo.envs); [reflexivity|].
  repeat (apply list.NoDup_cons; split;
          [intros Hin%list_elem_of_In; simpl in Hin; intuition discriminate|]).
  constructor.
Defined.

(** [uncaught_pinpointed] on a run that dies on its second line. *)
Lemma uncaught_pinpointed_witness :
  let stdin :=
    [Demo.line "{'cmd': 'list_envs'}"; Demo.line "42";
     Demo.line "{'cmd': 'quit'}"] in
  ended (Demo.harness_run stdin) = Uncaught AttributeError ∧
  ∃ before line after,
    stdin = (before ++ line :: after)%list ∧
    ended (Demo.harness_run before) = EndOfInput ∧
    Reference.strip line ≠ "" ∧
    (Reference.loads (Reference.strip line) = LoadRaises AttributeError ∨
     ∃ cmd_data,
       Reference.loads (Reference.strip line) = Loaded cmd_data ∧
       Demo.harness_handle (final (Demo.harness_run before)) cmd_data
       = Raise AttributeError) ∧
    Demo.harness_run stdin =
    {| stdout := stdout (Demo.harness_run before);
       final := final (Demo.harness_run before);
       ended := Uncaught AttributeError |}.
Proof.
  split; [reflexivity|].
  apply (@uncaught_pinpointed Reference.builtins Demo.envs). reflexivity.
Defined.

(** [environment_stays_loaded] on a harness that holds an environment. *)
Lemma environment_stays_loaded_witness :
  let loaded :=
    {| env := Some (Demo.create (PStr "simple")); env_name := PStr "simple" |} in
  let requests :=
    [PDict [("cmd", PStr "reset"); ("env", PStr "keke")];
     PDict [("cmd", PStr "jump")]] in
  ∃ self' responses,
    handle_all loaded requests = Ok (self', responses) ∧
    is_Some (env loaded) ∧ is_Some (env self').
Proof.
  eexists _, _. split; [reflexivity|]. split; [by eexists|].
  eapply (@environment_stays_loaded Reference.builtins Demo.envs
            [PDict [("cmd", PStr "reset"); ("env", PStr "keke")];
             PDict [("cmd", PStr "jump")]]
            (@Build_EvalHarness Demo.envs
               (Some (Demo.create (PStr "simple"))) (PStr "simple")));
    [reflexivity|by eexists].
Defined.

(** [run_state_from_requests] on a run with a blank line and a line that
    is not JSON around a [reset]. *)
Lemma run_state_from_requests_witness :
  let stdin :=
    [Demo.newline; Demo.line "{'cmd': 'reset'}"; Demo.line "{'cmd': reset}"] in
  ended (Demo.harness_run stdin) = EndOfInput ∧
  ∃ responses,
    handle_all Demo.harness_init (requests_of stdin)
    = Ok (final (Demo.harness_run stdin), responses) ∧
    responses `sublist_of` stdout (Demo.harness_run stdin).
Proof.
  split; [reflexivity|].
  apply (@run_state_from_requests Reference.builtins Demo.envs). reflexivity.
Defined.
